(** * scCNVSim: allele feature counting (alignments/afc/core.py, utils/sam.py)

    A shallow embedding of the feature-counting core and of the SAM helpers
    it calls, with the properties of its specification stated and proved
    over the embedding.

    Conventions of the embedding:
    - Python integers are [Z]; [len] of a list is [Z.of_nat (length _)];
    - integer truthiness ([if x:]) is [py_bool], bitwise [&] is [Z.land];
    - a Python [dict] keyed by sample names is a [gmap string _];
    - objects mutated in place (the two counting machines, the output files,
      the thread data) are passed explicitly as state;
    - a raised exception is the [Exc] / [Raised] alternative of the result. *)

From Stdlib Require Import ZArith String Ascii List Lia Decimal DecimalString.
From stdpp Require Import base gmap strings list fin_maps.

Local Open Scope string_scope.
Local Open Scope Z_scope.

(* ===================================================================== *)
(** * Data model *)
(* ===================================================================== *)

(** ** Python values *)

(** Truth value of a Python [int]. *)
Definition py_bool (z : Z) : bool := negb (z =? 0).

(** Truth value of an optional string setting ([None] and the empty string are false). *)
Definition py_str_bool (o : option string) : bool :=
  match o with
  | Some s => negb (String.eqb s EmptyString)
  | None => false
  end.

(** The string handed to a call when the setting is used as an argument. *)
Definition py_str (o : option string) : string := default EmptyString o.

(** Exceptions the modelled code can raise. *)
Inductive exn : Type :=
  | RuntimeError (msg : string)
  | KeyError (key : string)
  | IndexError
  | TypeError
  | ValueError.

(** Result of a call that either returns or raises. *)
Inductive res (A : Type) : Type :=
  | Val (a : A)
  | Exc (e : exn).
Arguments Val {A} a.
Arguments Exc {A} e.

(** A loop body either falls through to the next iteration or leaves the
    enclosing function with a return code. *)
Inductive ctl (A : Type) : Type :=
  | Next (a : A)
  | Return (code : Z) (a : A).
Arguments Next {A} a.
Arguments Return {A} code a.

(** State left behind by code that writes files: kept on both exits. *)
Inductive outcome (A : Type) : Type :=
  | Returned (a : A)
  | Raised (e : exn) (a : A).
Arguments Returned {A} a.
Arguments Raised {A} e a.

Definition final {A} (o : outcome A) : A :=
  match o with
  | Returned a => a
  | Raised _ a => a
  end.

(** Python's [int * float] and [int < float].  The arithmetic of floats is
    not modelled: the minor-allele gate is stated over any type of fractions
    that provides the two operations the code uses. *)
Class PyFloat (F : Type) : Type := {
  int_mul : Z -> F -> F;
  int_lt : Z -> F -> bool;
}.

(** ** Alignment records (pysam.AlignedSegment, as far as the code reads it) *)

Record AlignedSegment : Type := {
  mapq : Z;
  flag : Z;
  tags : gmap string string;
  positions : list Z;
  base_calls : gmap Z string;
}.

Definition has_tag (read : AlignedSegment) (tag : string) : bool :=
  bool_decide (is_Some (tags read !! tag)).

(** ** Configuration (the options the core consumes) *)

Record Config (F : Type) : Type := {
  min_mapq : Z;
  excl_flag : Z;
  incl_flag : Z;
  no_orphan : bool;
  cell_tag : option string;
  umi_tag : option string;
  min_len : Z;
  min_count : Z;
  min_maf : F;
  no_dup_hap : bool;
  samples : list string;
  use_barcodes : bool;
}.
Arguments min_mapq {F} _.
Arguments excl_flag {F} _.
Arguments incl_flag {F} _.
Arguments no_orphan {F} _.
Arguments cell_tag {F} _.
Arguments umi_tag {F} _.
Arguments min_len {F} _.
Arguments min_count {F} _.
Arguments min_maf {F} _.
Arguments no_dup_hap {F} _.
Arguments samples {F} _.
Arguments use_barcodes {F} _.

(* ===================================================================== *)
(** * utils/sam.py *)
(* ===================================================================== *)

Module sam.

Definition BAM_FPAIRED : Z := 1.
Definition BAM_FPROPER_PAIR : Z := 2.

Definition check_read {F} (read : AlignedSegment) (conf : Config F) : Z :=
  if mapq read <? min_mapq conf then -2
  else if py_bool (excl_flag conf)
          && py_bool (Z.land (flag read) (excl_flag conf)) then -3
  else if py_bool (incl_flag conf)
          && negb (py_bool (Z.land (flag read) (incl_flag conf))) then -4
  else if no_orphan conf
          && py_bool (Z.land (flag read) BAM_FPAIRED)
          && negb (py_bool (Z.land (flag read) BAM_FPROPER_PAIR)) then -5
  else if py_str_bool (cell_tag conf)
          && negb (has_tag read (py_str (cell_tag conf))) then -11
  else if py_str_bool (umi_tag conf)
          && negb (has_tag read (py_str (umi_tag conf))) then -12
  else if Z.of_nat (length (positions read)) <? min_len conf then -21
  else 0.

(** What [pysam.AlignmentFile.fetch] hands back: an object with a truth
    value, iterated to obtain the reads. *)
Record Iterator : Type := {
  it_bool : bool;
  it_reads : list AlignedSegment;
}.

(** A [pysam.AlignmentFile]: [fetch chrom start end] returns an iterator
    or raises. *)
Record AlignmentFile : Type := {
  fetch : string -> option Z -> option Z -> res Iterator;
}.

(** [chrom[3:]] *)
Fixpoint str_drop (n : nat) (s : string) : string :=
  match n, s with
  | O, _ => s
  | S n', String _ s' => str_drop n' s'
  | S _, EmptyString => EmptyString
  end.

(** [chrom[3:] if chrom.startswith("chr") else "chr" + chrom] *)
Definition alt_chrom (chrom : string) : string :=
  if String.prefix "chr" chrom then str_drop 3 chrom else "chr" +:+ chrom.

Definition sam_fetch (sam : AlignmentFile) (chrom : string)
    (start end_ : option Z) : option Iterator :=
  let start := match start with
               | Some s => Some (s - 1)
               | None => None
               end in
  let retry :=
    let chrom := alt_chrom chrom in
    match fetch sam chrom start end_ with
    | Exc _ => None
    | Val itr => if it_bool itr then Some itr else None
    end in
  match fetch sam chrom start end_ with
  | Exc _ => retry
  | Val itr => if it_bool itr then Some itr else retry
  end.

End sam.

(* ===================================================================== *)
(** * utils/sam.py: query bases and qualities *)
(* ===================================================================== *)

(** CIGAR operations. *)
Definition BAM_CMATCH : Z := 0.
Definition BAM_CINS : Z := 1.
Definition BAM_CDEL : Z := 2.
Definition BAM_CREF_SKIP : Z := 3.
Definition BAM_CSOFT_CLIP : Z := 4.
Definition BAM_CHARD_CLIP : Z := 5.
Definition BAM_CPAD : Z := 6.
Definition BAM_CEQUAL : Z := 7.
Definition BAM_CDIFF : Z := 8.
Definition BAM_CBACK : Z := 9.

(** The attributes of a pysam.AlignedSegment read by [get_query_bases] and
    [get_query_qualities]; each may be [None]. *)
Record QuerySegment : Type := {
  cigartuples : option (list (Z * Z));
  query_sequence : option (list ascii);
  query_qualities : option (list Z);
}.

(** [s[i]] on a Python sequence: a negative index counts from the end, an
    index out of range raises. *)
Definition py_getitem {A} (s : list A) (i : Z) : res A :=
  let n := Z.of_nat (length s) in
  let j := if i <? 0 then i + n else i in
  if (j <? 0) || (n <=? j) then Exc IndexError
  else
    match s !! Z.to_nat j with
    | Some x => Val x
    | None => Exc IndexError
    end.

(** [for i in range(pos, pos + l): result.append(s[i])], with [n] the
    number of iterations; indexing [None] raises. *)
Fixpoint append_range {A} (s : option (list A)) (pos : Z) (n : nat)
    (result : list (option A)) : res (list (option A)) :=
  match n with
  | O => Val result
  | S n =>
      match s with
      | None => Exc TypeError
      | Some seq =>
          match py_getitem seq pos with
          | Exc e => Exc e
          | Val x => append_range s (pos + 1) n (result ++ [Some x])%list
          end
      end
  end.

(** [for op, l in cigar_tuples: ...], the loop shared by the two functions
    (lines 55-65 and 97-107); the entries of [result] are elements of [s]
    or [None]. *)
Fixpoint query_loop {A} (s : option (list A)) (full_length : bool)
    (cigar_tuples : list (Z * Z)) (pos : Z) (result : list (option A))
    : res (list (option A)) :=
  match cigar_tuples with
  | [] => Val result
  | (op, l) :: cigar_tuples =>
      if (op =? BAM_CSOFT_CLIP) || (op =? BAM_CINS) then
        let result :=
          if full_length then (result ++ replicate (Z.to_nat l) None)%list
          else result in
        query_loop s full_length cigar_tuples (pos + l) result
      else if (op =? BAM_CMATCH) || (op =? BAM_CEQUAL) || (op =? BAM_CDIFF) then
        match append_range s pos (Z.to_nat l) result with
        | Exc e => Exc e
        | Val result => query_loop s full_length cigar_tuples (pos + l) result
        end
      else query_loop s full_length cigar_tuples pos result
  end.

Definition get_query_bases (read : QuerySegment) (full_length : bool)
    : res (list (option ascii)) :=
  match cigartuples read with
  | None | Some [] => Val []
  | Some cigar_tuples =>
      query_loop (query_sequence read) full_length cigar_tuples 0 []
  end.

Definition get_query_qualities (read : QuerySegment) (full_length : bool)
    : res (list (option Z)) :=
  match cigartuples read with
  | None | Some [] => Val []
  | Some cigar_tuples =>
      query_loop (query_qualities read) full_length cigar_tuples 0 []
  end.

(* ===================================================================== *)
(** * alignments/afc/core.py *)
(* ===================================================================== *)

Definition BAM_FPAIRED : Z := sam.BAM_FPAIRED.
Definition BAM_FPROPER_PAIR : Z := sam.BAM_FPROPER_PAIR.

Definition check_read {F} (read : AlignedSegment) (conf : Config F) : Z :=
  if mapq read <? min_mapq conf then -2
  else if py_bool (excl_flag conf)
          && py_bool (Z.land (flag read) (excl_flag conf)) then -3
  else if py_bool (incl_flag conf)
          && negb (py_bool (Z.land (flag read) (incl_flag conf))) then -4
  else if no_orphan conf
          && py_bool (Z.land (flag read) BAM_FPAIRED)
          && negb (py_bool (Z.land (flag read) BAM_FPROPER_PAIR)) then -5
  else if py_str_bool (cell_tag conf)
          && negb (has_tag read (py_str (cell_tag conf))) then -11
  else if py_str_bool (umi_tag conf)
          && negb (has_tag read (py_str (umi_tag conf))) then -12
  else if Z.of_nat (length (positions read)) <? min_len conf then -21
  else 0.

(** ** Regions and SNPs (gfeature objects, as far as the code reads them) *)

Record SNP : Type := {
  snp_chrom : string;
  snp_pos : Z;
  snp_ref : string;
  snp_alt : string;
}.

Record Region : Type := {
  reg_chrom : string;
  reg_start : Z;
  reg_end : Z;
  reg_name : string;
  snp_list : list SNP;
}.

(** ** The two counting machines *)

(** Modelled from the spec: the per-sample tally kept by the feature counting
    machine (class SCount of fcount.py is not among the sources).  Spec section
    3, AlleleTally: four counters, reference-supporting,
    alternative-supporting, duplicate-haplotype and other-base-supporting.
    The code reads them as [allele_cnt[0]], [allele_cnt[1]], [allele_cnt[2]]
    and [allele_cnt[-1]]. *)
Record SCount : Type := {
  ref_supporting : Z;
  alt_supporting : Z;
  dup_count : Z;
  other_supporting : Z;
}.

Definition allele_cnt (scnt : SCount) (i : Z) : Z :=
  match i with
  | 0 => ref_supporting scnt
  | 1 => alt_supporting scnt
  | 2 => dup_count scnt
  | -1 => other_supporting scnt
  | _ => 0
  end.

(** The SNP counting machine (mcount.MCount, imported as SNPMCount): the
    class is used through this interface.  Every method returns its status
    code together with the machine after the call. *)
Module SNPMCount.
Class Ops (M : Type) : Type := {
  add_snp : M -> SNP -> Z * M;
  push_read : M -> AlignedSegment -> option string -> Z * M;
  stat : M -> Z * M;
  tcount : M -> list Z;
  base_idx : M -> gmap string nat;
}.
End SNPMCount.

(** The feature counting machine (fcount.MCount, imported as
    FeatureMCount). *)
Module FeatureMCount.
Class Ops (FM M : Type) : Type := {
  add_region : FM -> Region -> Z * FM;
  push_snp : FM -> M -> Z * FM;
  stat : FM -> Z * FM;
  cell_cnt : FM -> gmap string SCount;
}.
End FeatureMCount.

(** ** plp_snp *)

Section Pileup.
Context {F : Type} {PF : PyFloat F} {M : Type} {SO : SNPMCount.Ops M}.

(** Lines 192-196: the read is pushed under its barcode, or under the
    sample of the alignment file it comes from. *)
Definition plp_push (conf : Config F) (idx : nat) (mcnt : M)
    (read : AlignedSegment) : res (Z * M) :=
  if use_barcodes conf then
    Val (SNPMCount.push_read mcnt read None)
  else
    match samples conf !! idx with
    | Some sample => Val (SNPMCount.push_read mcnt read (Some sample))
    | None => Exc IndexError
    end.

(** [for read in itr: ...] (lines 189-200); [idx] is the index of the
    alignment file being read. *)
Fixpoint plp_reads (idx : nat) (reads : list AlignedSegment) (mcnt : M)
    (conf : Config F) : res (ctl M) :=
  match reads with
  | [] => Val (Next mcnt)
  | read :: reads =>
      if check_read read conf <? 0 then plp_reads idx reads mcnt conf
      else
        match plp_push conf idx mcnt read with
        | Exc e => Exc e
        | Val (ret, mcnt) =>
            if ret <? 0 then
              if ret =? -1 then Val (Return (-5) mcnt)
              else plp_reads idx reads mcnt conf
            else plp_reads idx reads mcnt conf
        end
  end.

(** [for idx, sam in enumerate(sam_list): ...] (lines 185-200). *)
Fixpoint plp_sams (idx : nat) (sam_list : list sam.AlignmentFile)
    (snp : SNP) (mcnt : M) (conf : Config F) : res (ctl M) :=
  match sam_list with
  | [] => Val (Next mcnt)
  | sam :: sam_list =>
      match sam.sam_fetch sam (snp_chrom snp)
              (Some (snp_pos snp)) (Some (snp_pos snp)) with
      | None => plp_sams (S idx) sam_list snp mcnt conf
      | Some itr =>
          match plp_reads idx (sam.it_reads itr) mcnt conf with
          | Val (Next mcnt) => plp_sams (S idx) sam_list snp mcnt conf
          | stop => stop
          end
      end
  end.

(** [mcnt.tcount[mcnt.base_idx[base]]] *)
Definition tcount_of (mcnt : M) (base : string) : res Z :=
  match SNPMCount.base_idx mcnt !! base with
  | None => Exc (KeyError base)
  | Some i =>
      match SNPMCount.tcount mcnt !! i with
      | None => Exc IndexError
      | Some c => Val c
      end
  end.

(** The depth and minor-allele gate on the finalized tally
    (lines 203-211). *)
Definition plp_snp_gate (snp : SNP) (mcnt : M) (conf : Config F)
    : res (Z * M) :=
  let snp_cnt := foldl Z.add 0 (SNPMCount.tcount mcnt) in
  if snp_cnt <? min_count conf then Val (3, mcnt)
  else
    match tcount_of mcnt (snp_ref snp) with
    | Exc e => Exc e
    | Val snp_ref_cnt =>
        match tcount_of mcnt (snp_alt snp) with
        | Exc e => Exc e
        | Val snp_alt_cnt =>
            let snp_minor_cnt := Z.min snp_ref_cnt snp_alt_cnt in
            if int_lt snp_minor_cnt (int_mul snp_cnt (min_maf conf))
            then Val (5, mcnt)
            else Val (0, mcnt)
        end
    end.

Definition plp_snp (snp : SNP) (sam_list : list sam.AlignmentFile)
    (mcnt : M) (conf : Config F) : res (Z * M) :=
  let '(r, mcnt) := SNPMCount.add_snp mcnt snp in
  if r <? 0 then Val (-3, mcnt)
  else
    match plp_sams 0 sam_list snp mcnt conf with
    | Exc e => Exc e
    | Val (Return code mcnt) => Val (code, mcnt)
    | Val (Next mcnt) =>
        let '(r, mcnt) := SNPMCount.stat mcnt in
        if r <? 0 then Val (-7, mcnt)
        else plp_snp_gate snp mcnt conf
    end.

End Pileup.

(** ** fc_fet1 *)

(** The three dictionaries [reg_alt_cnt], [reg_dp_cnt], [reg_oth_cnt]. *)
Record RegCounts : Type := {
  reg_alt_cnt : gmap string Z;
  reg_dp_cnt : gmap string Z;
  reg_oth_cnt : gmap string Z;
}.

(** [{smp:0 for smp in conf.samples}] *)
Definition zero_dict (samples : list string) : gmap string Z :=
  foldl (fun d smp => <[smp := 0]> d) ∅ samples.

(** Body of [for smp, scnt in mcnt.cell_cnt.items()] (lines 153-158).  The
    two [+=] read the entry assigned just above. *)
Definition fet1_sample {F} (conf : Config F) (smp : string) (scnt : SCount)
    (cnt : RegCounts) : RegCounts :=
  let alt := <[smp := allele_cnt scnt 1]> (reg_alt_cnt cnt) in
  let dp := <[smp := allele_cnt scnt 0 + allele_cnt scnt 1]> (reg_dp_cnt cnt) in
  let oth := <[smp := allele_cnt scnt (-1)]> (reg_oth_cnt cnt) in
  if negb (no_dup_hap conf) then
    {| reg_alt_cnt := <[smp := alt !!! smp + allele_cnt scnt 2]> alt;
       reg_dp_cnt := <[smp := dp !!! smp + allele_cnt scnt 2 * 2]> dp;
       reg_oth_cnt := oth |}
  else
    {| reg_alt_cnt := alt; reg_dp_cnt := dp; reg_oth_cnt := oth |}.

(** Lines 148-158: the dictionaries built from the finalized machine. *)
Definition fet1_counts {F} (conf : Config F) (cells : gmap string SCount)
    : RegCounts :=
  map_fold (fet1_sample conf)
    {| reg_alt_cnt := zero_dict (samples conf);
       reg_dp_cnt := zero_dict (samples conf);
       reg_oth_cnt := zero_dict (samples conf) |}
    cells.

Section Feature.
Context {F : Type} {PF : PyFloat F} {M FM : Type}
        {SO : SNPMCount.Ops M} {FO : FeatureMCount.Ops FM M}.

(** [for snp in reg.snp_list: ...] (lines 134-144). *)
Fixpoint fet1_snps (snps : list SNP) (sam_list : list sam.AlignmentFile)
    (snp_mcnt : M) (mcnt : FM) (conf : Config F) : res (ctl (M * FM)) :=
  match snps with
  | [] => Val (Next (snp_mcnt, mcnt))
  | snp :: snps =>
      match plp_snp snp sam_list snp_mcnt conf with
      | Exc e => Exc e
      | Val (ret, snp_mcnt) =>
          if ret <? 0 then Val (Return (-3) (snp_mcnt, mcnt))
          else if 0 <? ret then fet1_snps snps sam_list snp_mcnt mcnt conf
          else
            let '(r, mcnt) := FeatureMCount.push_snp mcnt snp_mcnt in
            if r <? 0 then Val (Return (-5) (snp_mcnt, mcnt))
            else fet1_snps snps sam_list snp_mcnt mcnt conf
      end
  end.

(** Returns the code, the three dictionaries ([None] with a negative
    code) and the two machines as the call leaves them. *)
Definition fc_fet1 (reg : Region) (sam_list : list sam.AlignmentFile)
    (snp_mcnt : M) (mcnt : FM) (conf : Config F)
    : res (Z * option RegCounts * (M * FM)) :=
  match fet1_snps (snp_list reg) sam_list snp_mcnt mcnt conf with
  | Exc e => Exc e
  | Val (Return code ms) => Val (code, None, ms)
  | Val (Next (snp_mcnt, mcnt)) =>
      let '(r, mcnt) := FeatureMCount.stat mcnt in
      if r <? 0 then Val (-7, None, (snp_mcnt, mcnt))
      else
        Val (0, Some (fet1_counts conf (FeatureMCount.cell_cnt mcnt)),
             (snp_mcnt, mcnt))
  end.

End Feature.

(** ** fc_features *)

Definition TAB : string := String (ascii_of_nat 9) EmptyString.
Definition LF : string := String (ascii_of_nat 10) EmptyString.

(** ["%d" % z] *)
Definition fmt_d (z : Z) : string := NilZero.string_of_int (Z.to_int z).

(** ["%d\t%d\t%d\n" % (a, b, c)] *)
Definition fmt_triplet (a b c : Z) : string :=
  fmt_d a +:+ TAB +:+ fmt_d b +:+ TAB +:+ fmt_d c +:+ LF.

(** ["%s\t%d\t%d\t%s\n" % (reg.chrom, reg.start, reg.end - 1, reg.name)] *)
Definition str_reg (reg : Region) : string :=
  reg_chrom reg +:+ TAB +:+ fmt_d (reg_start reg) +:+ TAB
    +:+ fmt_d (reg_end reg - 1) +:+ TAB +:+ reg_name reg +:+ LF.

(** The fields of the thread data that [fc_features] writes. *)
Record ThreadData : Type := {
  ret : Z;
  nr_reg : Z;
  nr_ad : Z;
  nr_dp : Z;
  nr_oth : Z;
}.

(** The strings accumulated for one region. *)
Record Lines : Type := {
  str_ad : string;
  str_dp : string;
  str_oth : string;
}.

(** The three strings as line 84 initialises them, all empty. *)
Definition empty_Lines : Lines :=
  {| str_ad := EmptyString; str_dp := EmptyString; str_oth := EmptyString |}.

(** The four output files, each as the sequence of strings passed to its
    [write]; the content of a file is their concatenation. *)
Record Files : Type := {
  fp_reg : list string;
  fp_ad : list string;
  fp_dp : list string;
  fp_oth : list string;
}.

Definition content (writes : list string) : string :=
  foldr String.append EmptyString writes.

(** Truth value of a Python [str]. *)
Definition py_nonempty (s : string) : bool := negb (String.eqb s EmptyString).

Definition push_ad (reg_idx i : nat) (nu_ad : Z) (st : Lines * ThreadData)
    : Lines * ThreadData :=
  let '(l, td) := st in
  ({| str_ad := str_ad l +:+ fmt_triplet (Z.of_nat reg_idx + 1) (Z.of_nat i + 1) nu_ad;
      str_dp := str_dp l; str_oth := str_oth l |},
   {| ret := ret td; nr_reg := nr_reg td; nr_ad := nr_ad td + 1;
      nr_dp := nr_dp td; nr_oth := nr_oth td |}).

Definition push_dp (reg_idx i : nat) (nu_dp : Z) (st : Lines * ThreadData)
    : Lines * ThreadData :=
  let '(l, td) := st in
  ({| str_ad := str_ad l;
      str_dp := str_dp l +:+ fmt_triplet (Z.of_nat reg_idx + 1) (Z.of_nat i + 1) nu_dp;
      str_oth := str_oth l |},
   {| ret := ret td; nr_reg := nr_reg td; nr_ad := nr_ad td;
      nr_dp := nr_dp td + 1; nr_oth := nr_oth td |}).

Definition push_oth (reg_idx i : nat) (nu_oth : Z) (st : Lines * ThreadData)
    : Lines * ThreadData :=
  let '(l, td) := st in
  ({| str_ad := str_ad l; str_dp := str_dp l;
      str_oth := str_oth l +:+ fmt_triplet (Z.of_nat reg_idx + 1) (Z.of_nat i + 1) nu_oth |},
   {| ret := ret td; nr_reg := nr_reg td; nr_ad := nr_ad td;
      nr_dp := nr_dp td; nr_oth := nr_oth td + 1 |}).

(** Body of [for i, smp in enumerate(conf.samples)] (lines 86-99). *)
Definition emit_sample (reg_idx i : nat) (smp : string) (cnt : RegCounts)
    (st : Lines * ThreadData) : outcome (Lines * ThreadData) :=
  match reg_alt_cnt cnt !! smp, reg_dp_cnt cnt !! smp, reg_oth_cnt cnt !! smp with
  | Some nu_ad, Some nu_dp, Some nu_oth =>
      if nu_dp + nu_oth <=? 0 then Returned st
      else
        let st := if 0 <? nu_ad then push_ad reg_idx i nu_ad st else st in
        let st := if 0 <? nu_dp then push_dp reg_idx i nu_dp st else st in
        let st := if 0 <? nu_oth then push_oth reg_idx i nu_oth st else st in
        Returned st
  | _, _, _ => Raised (KeyError smp) st
  end.

(** [for i, smp in enumerate(conf.samples): ...] from index [i] on. *)
Fixpoint emit_samples (reg_idx i : nat) (smps : list string) (cnt : RegCounts)
    (st : Lines * ThreadData) : outcome (Lines * ThreadData) :=
  match smps with
  | [] => Returned st
  | smp :: smps =>
      match emit_sample reg_idx i smp cnt st with
      | Returned st => emit_samples reg_idx (S i) smps cnt st
      | Raised e st => Raised e st
      end
  end.

(** What a worker holds while it runs: the thread data, the four files and
    the two machines built at lines 62-63. *)
Record Worker (M FM : Type) : Type := {
  thdata : ThreadData;
  files : Files;
  snp_mcnt : M;
  mcnt : FM;
}.
Arguments thdata {M FM} _.
Arguments files {M FM} _.
Arguments snp_mcnt {M FM} _.
Arguments mcnt {M FM} _.

Definition write_reg (s : string) (fs : Files) : Files :=
  {| fp_reg := fp_reg fs ++ [s]; fp_ad := fp_ad fs;
     fp_dp := fp_dp fs; fp_oth := fp_oth fs |}.

(** Lines 102-104: the three writes of a region. *)
Definition write_counts (l : Lines) (fs : Files) : Files :=
  {| fp_reg := fp_reg fs; fp_ad := fp_ad fs ++ [str_ad l];
     fp_dp := fp_dp fs ++ [str_dp l]; fp_oth := fp_oth fs ++ [str_oth l] |}.

Section Worker.
Context {F : Type} {PF : PyFloat F} {M FM : Type}
        {SO : SNPMCount.Ops M} {FO : FeatureMCount.Ops FM M}.

(** Body of [for reg_idx, reg in enumerate(reg_list)] (lines 67-104);
    logging and the progress report are left out. *)
Definition fc_region (conf : Config F) (sam_list : list sam.AlignmentFile)
    (reg_idx : nat) (reg : Region) (w : Worker M FM)
    : outcome (Worker M FM) :=
  let mcnt := snd (FeatureMCount.add_region (mcnt w) reg) in
  let fs := write_reg (str_reg reg) (files w) in
  match snp_list reg with
  | [] =>
      Returned {| thdata := thdata w; files := fs;
                  snp_mcnt := snp_mcnt w; mcnt := mcnt |}
  | _ :: _ =>
      match fc_fet1 reg sam_list (snp_mcnt w) mcnt conf with
      | Exc e =>
          Raised e {| thdata := thdata w; files := fs;
                      snp_mcnt := snp_mcnt w; mcnt := mcnt |}
      | Val (ret, cnt, (snp_mcnt, mcnt)) =>
          if ret <? 0 then
            Raised (RuntimeError "errcode -9")
              {| thdata := thdata w; files := fs;
                 snp_mcnt := snp_mcnt; mcnt := mcnt |}
          else
            match cnt with
            | None =>
                Raised TypeError
                  {| thdata := thdata w; files := fs;
                     snp_mcnt := snp_mcnt; mcnt := mcnt |}
            | Some cnt =>
                let start :=
                  ({| str_ad := EmptyString; str_dp := EmptyString; str_oth := EmptyString |},
                   thdata w) in
                match emit_samples reg_idx 0 (samples conf) cnt start with
                | Raised e (_, td) =>
                    Raised e {| thdata := td; files := fs;
                                snp_mcnt := snp_mcnt; mcnt := mcnt |}
                | Returned (l, td) =>
                    let fs :=
                      if py_nonempty (str_dp l) || py_nonempty (str_oth l)
                      then write_counts l fs else fs in
                    Returned {| thdata := td; files := fs;
                                snp_mcnt := snp_mcnt; mcnt := mcnt |}
                end
            end
      end
  end.

(** [for reg_idx, reg in enumerate(reg_list): ...] from index [reg_idx]. *)
Fixpoint fc_regions (conf : Config F) (sam_list : list sam.AlignmentFile)
    (reg_idx : nat) (regs : list Region) (w : Worker M FM)
    : outcome (Worker M FM) :=
  match regs with
  | [] => Returned w
  | reg :: regs =>
      match fc_region conf sam_list reg_idx reg w with
      | Returned w => fc_regions conf sam_list (S reg_idx) regs w
      | Raised e w => Raised e w
      end
  end.

(** The worker when it enters the loop (lines 41-63): [td] is the thread
    data on entry, [snp_mcnt0] and [mcnt0] are the freshly built machines.
    The output files are opened for writing, hence start empty. *)
Definition opened (td : ThreadData) (snp_mcnt0 : M) (mcnt0 : FM)
    : Worker M FM :=
  {| thdata := {| ret := -1; nr_reg := nr_reg td; nr_ad := nr_ad td;
                  nr_dp := nr_dp td; nr_oth := nr_oth td |};
     files := {| fp_reg := []; fp_ad := []; fp_dp := []; fp_oth := [] |};
     snp_mcnt := snp_mcnt0; mcnt := mcnt0 |}.

(** The worker: [sam_list] are the opened alignment files, [reg_list] the
    loaded regions. *)
Definition fc_features (td : ThreadData) (conf : Config F)
    (sam_list : list sam.AlignmentFile) (reg_list : list Region)
    (snp_mcnt0 : M) (mcnt0 : FM) : outcome (Worker M FM) :=
  match fc_regions conf sam_list 0 reg_list (opened td snp_mcnt0 mcnt0) with
  | Raised e w => Raised e w
  | Returned w =>
      let td := thdata w in
      Returned
        {| thdata := {| ret := 0; nr_reg := Z.of_nat (length reg_list);
                        nr_ad := nr_ad td; nr_dp := nr_dp td;
                        nr_oth := nr_oth td |};
           files := files w; snp_mcnt := snp_mcnt w; mcnt := mcnt w |}
  end.

End Worker.

(* ===================================================================== *)
(** * The properties, in the words of the specification *)
(* ===================================================================== *)

(** Section 4.1: the seven conditions under which a read qualifies. *)
Definition mapq_ok {F} (read : AlignedSegment) (conf : Config F) : Prop :=
  min_mapq conf <= mapq read.

Definition excl_ok {F} (read : AlignedSegment) (conf : Config F) : Prop :=
  excl_flag conf <> 0 -> Z.land (flag read) (excl_flag conf) = 0.

Definition incl_ok {F} (read : AlignedSegment) (conf : Config F) : Prop :=
  incl_flag conf <> 0 -> Z.land (flag read) (incl_flag conf) <> 0.

(** Bit 0 of the flag marks a paired read, bit 1 a proper pair. *)
Definition orphan_ok {F} (read : AlignedSegment) (conf : Config F) : Prop :=
  no_orphan conf = true ->
  Z.testbit (flag read) 0 = true -> Z.testbit (flag read) 1 = true.

Definition cell_tag_ok {F} (read : AlignedSegment) (conf : Config F) : Prop :=
  py_str_bool (cell_tag conf) = true ->
  is_Some (tags read !! py_str (cell_tag conf)).

Definition umi_tag_ok {F} (read : AlignedSegment) (conf : Config F) : Prop :=
  py_str_bool (umi_tag conf) = true ->
  is_Some (tags read !! py_str (umi_tag conf)).

Definition len_ok {F} (read : AlignedSegment) (conf : Config F) : Prop :=
  min_len conf <= Z.of_nat (length (positions read)).

Definition qualifies {F} (read : AlignedSegment) (conf : Config F) : Prop :=
  mapq_ok read conf /\ excl_ok read conf /\ incl_ok read conf
  /\ orphan_ok read conf /\ cell_tag_ok read conf /\ umi_tag_ok read conf
  /\ len_ok read conf.

(** Number of reads of a read set that [check_read] lets through. *)
Definition count_qualified {F} (reads : list AlignedSegment) (conf : Config F)
    : nat :=
  length (List.filter (fun read => check_read read conf =? 0) reads).

(** One setting of a configuration replaced, all others kept. *)
Definition with_min_mapq {F} (q : Z) (c : Config F) : Config F :=
  {| min_mapq := q; excl_flag := excl_flag c; incl_flag := incl_flag c;
     no_orphan := no_orphan c; cell_tag := cell_tag c; umi_tag := umi_tag c;
     min_len := min_len c; min_count := min_count c; min_maf := min_maf c;
     no_dup_hap := no_dup_hap c; samples := samples c;
     use_barcodes := use_barcodes c |}.

Definition with_min_len {F} (n : Z) (c : Config F) : Config F :=
  {| min_mapq := min_mapq c; excl_flag := excl_flag c;
     incl_flag := incl_flag c; no_orphan := no_orphan c;
     cell_tag := cell_tag c; umi_tag := umi_tag c;
     min_len := n; min_count := min_count c; min_maf := min_maf c;
     no_dup_hap := no_dup_hap c; samples := samples c;
     use_barcodes := use_barcodes c |}.

Definition with_excl_flag {F} (m : Z) (c : Config F) : Config F :=
  {| min_mapq := min_mapq c; excl_flag := m; incl_flag := incl_flag c;
     no_orphan := no_orphan c; cell_tag := cell_tag c; umi_tag := umi_tag c;
     min_len := min_len c; min_count := min_count c; min_maf := min_maf c;
     no_dup_hap := no_dup_hap c; samples := samples c;
     use_barcodes := use_barcodes c |}.

Definition with_incl_flag {F} (m : Z) (c : Config F) : Config F :=
  {| min_mapq := min_mapq c; excl_flag := excl_flag c; incl_flag := m;
     no_orphan := no_orphan c; cell_tag := cell_tag c; umi_tag := umi_tag c;
     min_len := min_len c; min_count := min_count c; min_maf := min_maf c;
     no_dup_hap := no_dup_hap c; samples := samples c;
     use_barcodes := use_barcodes c |}.

(** A mask is widened when bits are added to it, or when it is disabled. *)
Definition mask_widened (m m' : Z) : Prop := Z.land m m' = m \/ m' = 0.

(** Section 8, property 1, read literally: one threshold lowered or one
    mask widened, everything else held equal. *)
Inductive loosened_as_stated {F} (c : Config F) : Config F -> Prop :=
  | stated_mapq q :
      q <= min_mapq c -> loosened_as_stated c (with_min_mapq q c)
  | stated_len n :
      n <= min_len c -> loosened_as_stated c (with_min_len n c)
  | stated_excl m :
      mask_widened (excl_flag c) m -> loosened_as_stated c (with_excl_flag m c)
  | stated_incl m :
      mask_widened (incl_flag c) m -> loosened_as_stated c (with_incl_flag m c).

(** The changes that do loosen the filter: a threshold lowered; bits removed
    from the exclusion mask (down to disabling it); bits added to an
    inclusion mask that is in use, or the inclusion mask disabled. *)
Inductive loosened {F} (c : Config F) : Config F -> Prop :=
  | loosen_mapq q :
      q <= min_mapq c -> loosened c (with_min_mapq q c)
  | loosen_len n :
      n <= min_len c -> loosened c (with_min_len n c)
  | loosen_excl m :
      Z.land m (excl_flag c) = m -> loosened c (with_excl_flag m c)
  | loosen_incl m :
      (incl_flag c <> 0 /\ Z.land (incl_flag c) m = incl_flag c) \/ m = 0 ->
      loosened c (with_incl_flag m c).

(** An attempt to fetch succeeds when the call returns an object that is
    true, whatever reads it then yields; it fails when the call raises or
    returns an object that is false. *)
Definition attempt (r : res sam.Iterator) : option sam.Iterator :=
  match r with
  | Val itr => if sam.it_bool itr then Some itr else None
  | Exc _ => None
  end.

(** Section 8, property 2: the counts of one sample, with and without the
    duplicate-haplotype policy. *)
Definition emitted_alt {F} (conf : Config F) (scnt : SCount) : Z :=
  if no_dup_hap conf then alt_supporting scnt
  else alt_supporting scnt + dup_count scnt.

Definition emitted_dp {F} (conf : Config F) (scnt : SCount) : Z :=
  if no_dup_hap conf then ref_supporting scnt + alt_supporting scnt
  else ref_supporting scnt + alt_supporting scnt + 2 * dup_count scnt.

(** Number of lines of a text: its line feeds. *)
Fixpoint count_lines (s : string) : nat :=
  match s with
  | EmptyString => O
  | String c s => (if Ascii.eqb c (ascii_of_nat 10) then 1 else 0) + count_lines s
  end%nat.

(** Section 4.4, step 5: the lines of one stream for one region.  A sample
    is considered when its depth plus other count is positive; of a
    considered sample the positive count is written with 1-based indices. *)
Definition considered (cnt : RegCounts) (smp : string) : bool :=
  0 <? reg_dp_cnt cnt !!! smp + reg_oth_cnt cnt !!! smp.

Definition spec_line (count : gmap string Z) (cnt : RegCounts)
    (reg_idx i : nat) (smp : string) : string :=
  if considered cnt smp && (0 <? count !!! smp)
  then fmt_triplet (Z.of_nat reg_idx + 1) (Z.of_nat i + 1) (count !!! smp)
  else EmptyString.

Definition spec_lines (count : gmap string Z) (cnt : RegCounts)
    (reg_idx : nat) (smps : list string) : string :=
  content (imap (spec_line count cnt reg_idx) smps).

Definition spec_Lines (cnt : RegCounts) (reg_idx : nat) (smps : list string)
    : Lines :=
  {| str_ad := spec_lines (reg_alt_cnt cnt) cnt reg_idx smps;
     str_dp := spec_lines (reg_dp_cnt cnt) cnt reg_idx smps;
     str_oth := spec_lines (reg_oth_cnt cnt) cnt reg_idx smps |}.

(** The record counters after the lines [l] of one region were counted. *)
Definition counted (l : Lines) (td : ThreadData) : ThreadData :=
  {| ret := ret td; nr_reg := nr_reg td;
     nr_ad := nr_ad td + Z.of_nat (count_lines (str_ad l));
     nr_dp := nr_dp td + Z.of_nat (count_lines (str_dp l));
     nr_oth := nr_oth td + Z.of_nat (count_lines (str_oth l)) |}.

(** The three count streams of a worker. *)
Definition count_streams {M FM} (w : Worker M FM)
    : list string * list string * list string :=
  (fp_ad (files w), fp_dp (files w), fp_oth (files w)).

(** Every sample of the list has an entry in each of the three
    dictionaries, so that no lookup of the sample loop raises. *)
Definition keys_present (cnt : RegCounts) (smps : list string) : Prop :=
  forall smp, smp ∈ smps ->
    is_Some (reg_alt_cnt cnt !! smp) /\ is_Some (reg_dp_cnt cnt !! smp)
    /\ is_Some (reg_oth_cnt cnt !! smp).

(** The three strings of [l], each followed by that of [l']. *)
Definition append_Lines (l l' : Lines) : Lines :=
  {| str_ad := str_ad l +:+ str_ad l'; str_dp := str_dp l +:+ str_dp l';
     str_oth := str_oth l +:+ str_oth l' |}.

(** The lines of the samples [smps], the first of which has index [i]. *)
Definition spec_Lines_from (cnt : RegCounts) (reg_idx i : nat)
    (smps : list string) : Lines :=
  {| str_ad := content (imap (fun j => spec_line (reg_alt_cnt cnt) cnt reg_idx (i + j)) smps);
     str_dp := content (imap (fun j => spec_line (reg_dp_cnt cnt) cnt reg_idx (i + j)) smps);
     str_oth := content (imap (fun j => spec_line (reg_oth_cnt cnt) cnt reg_idx (i + j)) smps) |}.

(** Section 3, AlleleTally: the four counters of every unit are
    non-negative. *)
Definition counters_nonneg (cells : gmap string SCount) : Prop :=
  forall smp scnt, cells !! smp = Some scnt ->
    0 <= ref_supporting scnt /\ 0 <= alt_supporting scnt
    /\ 0 <= dup_count scnt /\ 0 <= other_supporting scnt.

(** How the body of the region loop can end: without SNPs, the region line
    is all that is written; an exception of [fc_fet1] or a negative code
    leaves the loop with only the region line written; otherwise the lines
    of the region are counted and, if some sample is considered, written. *)
Section RegionEnd.
Context {F : Type} {PF : PyFloat F} {M FM : Type}
        {SO : SNPMCount.Ops M} {FO : FeatureMCount.Ops FM M}.

Inductive region_end (conf : Config F) (sam_list : list sam.AlignmentFile)
    (reg_idx : nat) (reg : Region) (w : Worker M FM)
    : outcome (Worker M FM) -> Prop :=
  | end_no_snps :
      snp_list reg = [] ->
      region_end conf sam_list reg_idx reg w
        (Returned {| thdata := thdata w;
                     files := write_reg (str_reg reg) (files w);
                     snp_mcnt := snp_mcnt w;
                     mcnt := snd (FeatureMCount.add_region (mcnt w) reg) |})
  | end_raised e :
      snp_list reg <> [] ->
      fc_fet1 reg sam_list (snp_mcnt w)
        (snd (FeatureMCount.add_region (mcnt w) reg)) conf = Exc e ->
      region_end conf sam_list reg_idx reg w
        (Raised e {| thdata := thdata w;
                     files := write_reg (str_reg reg) (files w);
                     snp_mcnt := snp_mcnt w;
                     mcnt := snd (FeatureMCount.add_region (mcnt w) reg) |})
  | end_aborted code sm fm :
      snp_list reg <> [] ->
      fc_fet1 reg sam_list (snp_mcnt w)
        (snd (FeatureMCount.add_region (mcnt w) reg)) conf
        = Val (code, None, (sm, fm)) ->
      code < 0 ->
      region_end conf sam_list reg_idx reg w
        (Raised (RuntimeError "errcode -9")
           {| thdata := thdata w;
              files := write_reg (str_reg reg) (files w);
              snp_mcnt := sm; mcnt := fm |})
  | end_counted cnt sm fm :
      snp_list reg <> [] ->
      fc_fet1 reg sam_list (snp_mcnt w)
        (snd (FeatureMCount.add_region (mcnt w) reg)) conf
        = Val (0, Some cnt, (sm, fm)) ->
      cnt = fet1_counts conf (FeatureMCount.cell_cnt fm) ->
      region_end conf sam_list reg_idx reg w
        (Returned
           {| thdata := counted (spec_Lines cnt reg_idx (samples conf)) (thdata w);
              files :=
                if existsb (considered cnt) (samples conf)
                then write_counts (spec_Lines cnt reg_idx (samples conf))
                       (write_reg (str_reg reg) (files w))
                else write_reg (str_reg reg) (files w);
              snp_mcnt := sm; mcnt := fm |}).

End RegionEnd.

(** Record counters in excess of the lines in the files. *)
Definition excess {M FM} (w : Worker M FM) : Z * Z * Z :=
  (nr_ad (thdata w) - Z.of_nat (count_lines (content (fp_ad (files w)))),
   nr_dp (thdata w) - Z.of_nat (count_lines (content (fp_dp (files w)))),
   nr_oth (thdata w) - Z.of_nat (count_lines (content (fp_oth (files w))))).

(** ** Notions used for the query helpers and the remaining properties *)

(** CIGAR operations whose bases are in the query but not aligned (soft
    clip, insertion), and operations whose bases are aligned (match, equal,
    different). *)
Definition is_clip (op : Z) : bool :=
  (op =? BAM_CSOFT_CLIP) || (op =? BAM_CINS).

Definition is_match (op : Z) : bool :=
  (op =? BAM_CMATCH) || (op =? BAM_CEQUAL) || (op =? BAM_CDIFF).

(** Query bases a CIGAR accounts for, and those of them that are aligned. *)
Fixpoint query_len (cigar : list (Z * Z)) : Z :=
  match cigar with
  | [] => 0
  | (op, l) :: cigar =>
      (if is_clip op || is_match op then l else 0) + query_len cigar
  end.

Fixpoint aligned_len (cigar : list (Z * Z)) : Z :=
  match cigar with
  | [] => 0
  | (op, l) :: cigar => (if is_match op then l else 0) + aligned_len cigar
  end.

(** CIGAR lengths are unsigned in the alignment format. *)
Definition lengths_nonneg (cigar : list (Z * Z)) : Prop :=
  Forall (fun ol => 0 <= snd ol) cigar.

(** An aligned block of the CIGAR reaches beyond [n] query bases, counted
    from position [pos]. *)
Definition overruns (cigar : list (Z * Z)) (pos n : Z) : Prop :=
  exists pre op l post,
    cigar = (pre ++ (op, l) :: post)%list
    /\ is_match op = true /\ 0 < l /\ n < pos + query_len pre + l.

(** The elements the inner loop of the query helpers appends: those of
    [s] at the [n] positions from [pos] on. *)
Fixpoint range_items {A} (s : option (list A)) (pos : Z) (n : nat)
    : res (list A) :=
  match n with
  | O => Val []
  | S n =>
      match s with
      | None => Exc TypeError
      | Some seq =>
          match py_getitem seq pos with
          | Exc e => Exc e
          | Val x =>
              match range_items s (pos + 1) n with
              | Val l => Val (x :: l)
              | Exc e => Exc e
              end
          end
      end
  end.

(** Where the entries of a result are [None], and which exception was
    raised. *)
Definition is_entry {A} (o : option A) : bool :=
  match o with
  | Some _ => true
  | None => false
  end.

Definition shape {A} (r : res (list (option A))) : res (list bool) :=
  match r with
  | Val l => Val (is_entry <$> l)
  | Exc e => Exc e
  end.

(** A result with its [None] entries removed. *)
Definition strip {A} (r : res (list (option A))) : res (list (option A)) :=
  match r with
  | Val l => Val (Some <$> omap id l)
  | Exc e => Exc e
  end.

Definition with_min_count {F} (n : Z) (c : Config F) : Config F :=
  {| min_mapq := min_mapq c; excl_flag := excl_flag c;
     incl_flag := incl_flag c; no_orphan := no_orphan c;
     cell_tag := cell_tag c; umi_tag := umi_tag c;
     min_len := min_len c; min_count := n; min_maf := min_maf c;
     no_dup_hap := no_dup_hap c; samples := samples c;
     use_barcodes := use_barcodes c |}.

(** The exceptions of a failed subscript: a list index out of range or a
    dictionary key that is missing. *)
Definition lookup_error (e : exn) : Prop :=
  e = IndexError \/ exists key, e = KeyError key.

(** The count streams have received the same number of writes, no more
    than the region stream. *)
Definition in_step {M FM} (w : Worker M FM) : Prop :=
  length (fp_ad (files w)) = length (fp_dp (files w))
  /\ length (fp_dp (files w)) = length (fp_oth (files w))
  /\ (length (fp_ad (files w)) <= length (fp_reg (files w)))%nat.

(** The files [fs'] hold what [fs] holds, followed by further writes. *)
Definition extends (fs fs' : Files) : Prop :=
  (exists k, fp_reg fs' = (fp_reg fs ++ k)%list)
  /\ (exists k, fp_ad fs' = (fp_ad fs ++ k)%list)
  /\ (exists k, fp_dp fs' = (fp_dp fs ++ k)%list)
  /\ (exists k, fp_oth fs' = (fp_oth fs ++ k)%list).

(** The reads of a read set that [check_read] lets through. *)
Definition qualified {F} (conf : Config F) (reads : list AlignedSegment)
    : list AlignedSegment :=
  List.filter (fun read => negb (check_read read conf <? 0)) reads.

(* ===================================================================== *)
(** * Reference machines *)
(* ===================================================================== *)

(** Exact fractions [num / den], with Python's mixed arithmetic taken
    without rounding: one way to provide [PyFloat]. *)
Record Ratio : Type := {
  num : Z;
  den : positive;
}.

Definition Ratio_ops : PyFloat Ratio :=
  {| int_mul := fun n r => {| num := n * num r; den := den r |};
     int_lt := fun n r => n * Z.pos (den r) <? num r |}.

Definition SCount_zero : SCount :=
  {| ref_supporting := 0; alt_supporting := 0; dup_count := 0;
     other_supporting := 0 |}.

Definition SCount_add (a b : SCount) : SCount :=
  {| ref_supporting := ref_supporting a + ref_supporting b;
     alt_supporting := alt_supporting a + alt_supporting b;
     dup_count := dup_count a + dup_count b;
     other_supporting := other_supporting a + other_supporting b |}.

(** Modelled from the spec: the SNP tally of section 4.2 (class MCount of
    mcount.py is not among the sources).  It is bound to one SNP, keeps one
    AlleleTally per unit and, per unit and UMI, the base seen first; the
    aggregate vector holds the reference, alternative and other-or-ambiguous
    totals. *)
Record SnpTally : Type := {
  t_snp : option SNP;
  t_cell_tag : option string;
  t_umi_tag : option string;
  t_units : gmap string SCount;
  t_umis : gmap (string * string) string;
  t_tcount : list Z;
}.

(** Modelled from the spec: [reset()] clears the state for reuse. *)
Definition tally_reset (t : SnpTally) : SnpTally :=
  {| t_snp := None; t_cell_tag := t_cell_tag t; t_umi_tag := t_umi_tag t;
     t_units := ∅; t_umis := ∅; t_tcount := [0; 0; 0] |}.

(** Modelled from the spec: [add_snp(snp)] binds the tally to one SNP, after
    the reset the caller relies on. *)
Definition tally_add_snp (t : SnpTally) (snp : SNP) : Z * SnpTally :=
  let t := tally_reset t in
  (0, {| t_snp := Some snp; t_cell_tag := t_cell_tag t;
         t_umi_tag := t_umi_tag t; t_units := t_units t;
         t_umis := t_umis t; t_tcount := t_tcount t |}).

(** One observation of category [one] added to the tally of [unit]. *)
Definition tally_bump (one : SCount) (unit : string) (umis : gmap (string * string) string)
    (t : SnpTally) : SnpTally :=
  {| t_snp := t_snp t; t_cell_tag := t_cell_tag t; t_umi_tag := t_umi_tag t;
     t_units := <[unit := SCount_add (default SCount_zero (t_units t !! unit)) one]>
                  (t_units t);
     t_umis := umis; t_tcount := t_tcount t |}.

Definition classify (snp : SNP) (base : string) : SCount :=
  if String.eqb base (snp_ref snp) then
    {| ref_supporting := 1; alt_supporting := 0; dup_count := 0; other_supporting := 0 |}
  else if String.eqb base (snp_alt snp) then
    {| ref_supporting := 0; alt_supporting := 1; dup_count := 0; other_supporting := 0 |}
  else
    {| ref_supporting := 0; alt_supporting := 0; dup_count := 0; other_supporting := 1 |}.

(** Modelled from the spec: [push_read(read, unit)].  Code -1 is the fatal
    one (tally used before [add_snp]); a read without unit or without a
    readable base at the SNP position is declined with another negative
    code.  A UMI already counted for the unit is ignored when it agrees with
    its first base and goes to the duplicate-haplotype counter otherwise. *)
Definition tally_push_read (t : SnpTally) (read : AlignedSegment)
    (unit : option string) : Z * SnpTally :=
  match t_snp t with
  | None => (-1, t)
  | Some snp =>
      let unit := match unit with
                  | Some u => Some u
                  | None => tags read !! py_str (t_cell_tag t)
                  end in
      match unit, base_calls read !! (snp_pos snp - 1) with
      | None, _ => (-2, t)
      | _, None => (-3, t)
      | Some unit, Some base =>
          let umi := if py_str_bool (t_umi_tag t)
                     then tags read !! py_str (t_umi_tag t) else None in
          match umi with
          | None => (0, tally_bump (classify snp base) unit (t_umis t) t)
          | Some umi =>
              match t_umis t !! (unit, umi) with
              | None =>
                  (0, tally_bump (classify snp base) unit
                        (<[(unit, umi) := base]> (t_umis t)) t)
              | Some first =>
                  if String.eqb first base then (0, t)
                  else
                    (0, tally_bump
                          {| ref_supporting := 0; alt_supporting := 0;
                             dup_count := 1; other_supporting := 0 |}
                          unit (t_umis t) t)
              end
          end
      end
  end.

(** Modelled from the spec: [stat()] finalizes the totals across units and
    fails on an unbound tally. *)
Definition tally_stat (t : SnpTally) : Z * SnpTally :=
  match t_snp t with
  | None => (-1, t)
  | Some _ =>
      let total := map_fold (fun _ => SCount_add) SCount_zero (t_units t) in
      (0, {| t_snp := t_snp t; t_cell_tag := t_cell_tag t;
             t_umi_tag := t_umi_tag t; t_units := t_units t;
             t_umis := t_umis t;
             t_tcount := [ref_supporting total; alt_supporting total;
                          other_supporting total + dup_count total] |})
  end.

(** Modelled from the spec: the base-index map exposed after [stat()]. *)
Definition tally_base_idx (t : SnpTally) : gmap string nat :=
  match t_snp t with
  | None => ∅
  | Some snp => <[snp_ref snp := 0%nat]> (<[snp_alt snp := 1%nat]> ∅)
  end.

Definition SnpTally_ops : SNPMCount.Ops SnpTally :=
  {| SNPMCount.add_snp := tally_add_snp;
     SNPMCount.push_read := tally_push_read;
     SNPMCount.stat := tally_stat;
     SNPMCount.tcount := t_tcount;
     SNPMCount.base_idx := tally_base_idx |}.

(** A tally whose [add_snp] reports success without binding the SNP: the
    state corruption that [push_read] answers with its fatal code. *)
Definition corrupt_SnpTally_ops : SNPMCount.Ops SnpTally :=
  {| SNPMCount.add_snp := fun t _ => (0, tally_reset t);
     SNPMCount.push_read := tally_push_read;
     SNPMCount.stat := tally_stat;
     SNPMCount.tcount := t_tcount;
     SNPMCount.base_idx := tally_base_idx |}.

(** Modelled from the spec: the feature aggregator of section 4.3 (class
    MCount of fcount.py is not among the sources), keeping the four running
    counters of every unit. *)
Record FeatureTally : Type := {
  f_reg : option Region;
  f_samples : list string;
  f_cells : gmap string SCount;
}.

(** Modelled from the spec: [add_region(region)] resets the running totals
    of every configured unit to zero. *)
Definition feature_add_region (f : FeatureTally) (reg : Region)
    : Z * FeatureTally :=
  (0, {| f_reg := Some reg; f_samples := f_samples f;
         f_cells := foldl (fun m smp => <[smp := SCount_zero]> m) ∅
                      (f_samples f) |}).

(** Modelled from the spec: [push_snp(finalized_tally)] folds the per-unit
    counts of a tally into the running totals. *)
Definition feature_push_snp (f : FeatureTally) (t : SnpTally)
    : Z * FeatureTally :=
  match f_reg f with
  | None => (-1, f)
  | Some _ =>
      (0, {| f_reg := f_reg f; f_samples := f_samples f;
             f_cells := union_with (fun a b => Some (SCount_add a b))
                          (f_cells f) (t_units t) |})
  end.

(** Modelled from the spec: [stat()] fails if no region is bound. *)
Definition feature_stat (f : FeatureTally) : Z * FeatureTally :=
  match f_reg f with
  | None => (-1, f)
  | Some _ => (0, f)
  end.

Definition FeatureTally_ops : FeatureMCount.Ops FeatureTally SnpTally :=
  {| FeatureMCount.add_region := feature_add_region;
     FeatureMCount.push_snp := feature_push_snp;
     FeatureMCount.stat := feature_stat;
     FeatureMCount.cell_cnt := f_cells |}.

(* ===================================================================== *)
(** * A worked run (specification, section 8, examples 6 and 7) *)
(* ===================================================================== *)

Module Example.

(** A read covering position 1000 (0-based 999) with the given base. *)
Definition read_of (base : string) : AlignedSegment :=
  {| mapq := 60; flag := 0; tags := ∅; positions := [998; 999; 1000];
     base_calls := {[ 999 := base ]} |}.

Definition conf : Config Ratio :=
  {| min_mapq := 20; excl_flag := 1796; incl_flag := 0; no_orphan := true;
     cell_tag := None; umi_tag := None; min_len := 3; min_count := 10;
     min_maf := {| num := 1; den := 5 |}; no_dup_hap := false;
     samples := ["S1"]; use_barcodes := false |}.

Definition snp : SNP :=
  {| snp_chrom := "1"; snp_pos := 1000; snp_ref := "A"; snp_alt := "G" |}.

Definition gene : Region :=
  {| reg_chrom := "1"; reg_start := 900; reg_end := 1101;
     reg_name := "GENE1"; snp_list := [snp] |}.

Definition desert : Region :=
  {| reg_chrom := "1"; reg_start := 5000; reg_end := 6001;
     reg_name := "GENE2"; snp_list := [] |}.

(** An alignment file whose contigs carry the "chr" prefix and that holds
    the given reads over position 1000 of chr1. *)
Definition sam_of (reads : list AlignedSegment) : sam.AlignmentFile :=
  {| sam.fetch := fun chrom start end_ =>
       if String.eqb chrom "chr1" then
         if bool_decide (start = Some 999 /\ end_ = Some 1000)
         then Val {| sam.it_bool := true; sam.it_reads := reads |}
         else Val {| sam.it_bool := false; sam.it_reads := [] |}
       else Exc ValueError |}.

(** Example 6: six reads with A, four with G. *)
Definition reads6 : list AlignedSegment :=
  replicate 6 (read_of "A") ++ replicate 4 (read_of "G").

(** Example 7: nine reads with A, one with G. *)
Definition reads7 : list AlignedSegment :=
  replicate 9 (read_of "A") ++ [read_of "G"].

Definition tally0 : SnpTally :=
  {| t_snp := None; t_cell_tag := None; t_umi_tag := None;
     t_units := ∅; t_umis := ∅; t_tcount := [0; 0; 0] |}.

Definition feature0 : FeatureTally :=
  {| f_reg := None; f_samples := ["S1"]; f_cells := ∅ |}.

Definition td0 : ThreadData :=
  {| ret := 0; nr_reg := 0; nr_ad := 0; nr_dp := 0; nr_oth := 0 |}.

(** The tally of [snp] over the given reads, finalized. *)
Definition finalized (reads : list AlignedSegment) : SnpTally :=
  match plp_sams (SO := SnpTally_ops) 0 [sam_of reads] snp
          (snd (tally_add_snp tally0 snp)) conf with
  | Val (Next t) => snd (tally_stat t)
  | _ => tally0
  end.

(** [fc_fet1] on the region of example 6, entered as [fc_features] enters
    it, and what it hands back. *)
Definition fet1_gene : res (Z * option RegCounts * (SnpTally * FeatureTally)) :=
  fc_fet1 (PF := Ratio_ops) (SO := SnpTally_ops) (FO := FeatureTally_ops)
    gene [sam_of reads6] tally0 (snd (feature_add_region feature0 gene)) conf.

Definition counts_gene : RegCounts :=
  match fet1_gene with
  | Val (_, Some cnt, _) => cnt
  | _ => {| reg_alt_cnt := ∅; reg_dp_cnt := ∅; reg_oth_cnt := ∅ |}
  end.

Definition machines_gene : SnpTally * FeatureTally :=
  match fet1_gene with
  | Val (_, _, ms) => ms
  | Exc _ => (tally0, feature0)
  end.

Definition run (ops : SNPMCount.Ops SnpTally) (reads : list AlignedSegment)
    (regs : list Region) : outcome (Worker SnpTally FeatureTally) :=
  fc_features (SO := ops) (FO := FeatureTally_ops) (PF := Ratio_ops)
    td0 conf [sam_of reads] regs tally0 feature0.

(** A read of nine bases: two soft-clipped, three aligned, one inserted,
    two aligned, one soft-clipped, after a hard clip and around a
    deletion. *)
Definition segment : QuerySegment :=
  {| cigartuples := Some [(5, 4); (4, 2); (0, 3); (1, 1); (2, 7); (0, 2); (4, 1)];
     query_sequence := Some (list_ascii_of_string "ttACGgTAc");
     query_qualities := Some [2; 2; 30; 31; 32; 10; 33; 34; 2] |}.

(** The same read with a CIGAR that aligns more bases than it has. *)
Definition overlong : QuerySegment :=
  {| cigartuples := Some [(4, 2); (0, 8)];
     query_sequence := query_sequence segment;
     query_qualities := query_qualities segment |}.

End Example.

(* ===================================================================== *)
(** * Read qualification *)
(* ===================================================================== *)

Section CheckRead.
Context {F : Type}.
Implicit Types (read : AlignedSegment) (conf : Config F).

Lemma py_bool_true z : py_bool z = true <-> z <> 0.
Proof. unfold py_bool. destruct (Z.eqb_spec z 0); simpl; intuition congruence. Qed.

Lemma py_bool_false z : py_bool z = false <-> z = 0.
Proof. unfold py_bool. destruct (Z.eqb_spec z 0); simpl; intuition congruence. Qed.

Lemma land_pow2 x n :
  0 <= n -> Z.land x (2 ^ n) = if Z.testbit x n then 2 ^ n else 0.
Proof.
  intros Hn. apply Z.bits_inj'. intros k Hk.
  rewrite Z.land_spec, Z.pow2_bits_eqb by lia.
  destruct (Z.eqb_spec n k) as [->|Hne].
  - destruct (Z.testbit x k); simpl.
    + now rewrite Z.pow2_bits_true.
    + now rewrite Z.bits_0.
  - rewrite andb_false_r.
    destruct (Z.testbit x n).
    + rewrite Z.pow2_bits_false; auto.
    + now rewrite Z.bits_0.
Qed.

Lemma paired_bit x : Z.land x BAM_FPAIRED <> 0 <-> Z.testbit x 0 = true.
Proof.
  change BAM_FPAIRED with (2 ^ 0). rewrite land_pow2 by lia.
  destruct (Z.testbit x 0); simpl; intuition (try lia; congruence).
Qed.

Lemma proper_pair_bit x :
  Z.land x BAM_FPROPER_PAIR <> 0 <-> Z.testbit x 1 = true.
Proof.
  change BAM_FPROPER_PAIR with (2 ^ 1). rewrite land_pow2 by lia.
  destruct (Z.testbit x 1); simpl; intuition (try lia; congruence).
Qed.

Lemma has_tag_true read tag :
  has_tag read tag = true <-> is_Some (tags read !! tag).
Proof. unfold has_tag. apply bool_decide_eq_true. Qed.

(** Each test of [check_read] fails exactly when its condition holds. *)
Lemma mapq_test read conf :
  (mapq read <? min_mapq conf) = false <-> mapq_ok read conf.
Proof. unfold mapq_ok. rewrite Z.ltb_ge. reflexivity. Qed.

Lemma excl_test read conf :
  py_bool (excl_flag conf) && py_bool (Z.land (flag read) (excl_flag conf))
    = false <-> excl_ok read conf.
Proof.
  unfold excl_ok. rewrite andb_false_iff, !py_bool_false.
  destruct (Z.eq_dec (excl_flag conf) 0); intuition.
Qed.

Lemma incl_test read conf :
  py_bool (incl_flag conf)
    && negb (py_bool (Z.land (flag read) (incl_flag conf)))
    = false <-> incl_ok read conf.
Proof.
  unfold incl_ok. rewrite andb_false_iff, negb_false_iff, py_bool_false,
    py_bool_true.
  destruct (Z.eq_dec (incl_flag conf) 0); intuition.
Qed.

Lemma orphan_test read conf :
  no_orphan conf && py_bool (Z.land (flag read) BAM_FPAIRED)
    && negb (py_bool (Z.land (flag read) BAM_FPROPER_PAIR))
    = false <-> orphan_ok read conf.
Proof.
  unfold orphan_ok.
  rewrite !andb_false_iff, negb_false_iff, py_bool_false, py_bool_true.
  rewrite <- paired_bit, <- proper_pair_bit.
  destruct (no_orphan conf);
    destruct (Z.eq_dec (Z.land (flag read) BAM_FPAIRED) 0);
    intuition congruence.
Qed.

Lemma tag_test read (tag : option string) :
  py_str_bool tag && negb (has_tag read (py_str tag)) = false
  <-> (py_str_bool tag = true -> is_Some (tags read !! py_str tag)).
Proof.
  rewrite andb_false_iff, negb_false_iff, has_tag_true.
  destruct (py_str_bool tag); intuition congruence.
Qed.

Lemma len_test read conf :
  (Z.of_nat (length (positions read)) <? min_len conf) = false
  <-> len_ok read conf.
Proof. unfold len_ok. rewrite Z.ltb_ge. reflexivity. Qed.

Lemma sam_check_read_eq read conf :
  sam.check_read read conf = check_read read conf.
Proof. reflexivity. Qed.

End CheckRead.

(** The tests of [check_read] taken one after the other, each replaced by
    the condition it decides. *)
Ltac check_read_cases read conf :=
  pose proof (mapq_test read conf);
  pose proof (excl_test read conf);
  pose proof (incl_test read conf);
  pose proof (orphan_test read conf);
  pose proof (tag_test read (cell_tag conf)) as Hcell;
  pose proof (tag_test read (umi_tag conf)) as Humi;
  pose proof (len_test read conf);
  fold (cell_tag_ok read conf) in Hcell; fold (umi_tag_ok read conf) in Humi;
  unfold qualifies, sam.check_read, check_read;
  destruct (mapq read <? min_mapq conf);
    [| destruct (py_bool (excl_flag conf) && _);
    [| destruct (py_bool (incl_flag conf) && _);
    [| destruct (no_orphan conf && _ && _);
    [| destruct (py_str_bool (cell_tag conf) && _);
    [| destruct (py_str_bool (umi_tag conf) && _);
    [| destruct (Z.of_nat (length (positions read)) <? min_len conf) ]]]]]].

(** [check_read] lets through exactly the reads that qualify. *)
Lemma check_read_qualifies {F} (read : AlignedSegment) (conf : Config F) :
  check_read read conf = 0 <-> qualifies read conf.
Proof.
  check_read_cases read conf; split; try discriminate; try reflexivity;
    intuition (try discriminate).
Qed.

(** C3. [check_read] returns 0 exactly for the reads that meet all seven
    conditions of section 4.1 (mapping quality, exclusion mask, inclusion
    mask, no orphan, cell tag, UMI tag, aligned length); a read that does
    not qualify gets the code of the first condition it fails, one negative
    code per condition: -2, -3, -4, -5, -11, -12, -21.  The function is a
    pure function of the read and the configuration, and the copy in
    utils/sam.py computes the same. *)
Theorem check_read_spec {F} (read : AlignedSegment) (conf : Config F) :
  (check_read read conf = 0 <-> qualifies read conf)
  /\ (check_read read conf = -2 <-> ~ mapq_ok read conf)
  /\ (check_read read conf = -3 <->
      mapq_ok read conf /\ ~ excl_ok read conf)
  /\ (check_read read conf = -4 <->
      mapq_ok read conf /\ excl_ok read conf /\ ~ incl_ok read conf)
  /\ (check_read read conf = -5 <->
      mapq_ok read conf /\ excl_ok read conf /\ incl_ok read conf
      /\ ~ orphan_ok read conf)
  /\ (check_read read conf = -11 <->
      mapq_ok read conf /\ excl_ok read conf /\ incl_ok read conf
      /\ orphan_ok read conf /\ ~ cell_tag_ok read conf)
  /\ (check_read read conf = -12 <->
      mapq_ok read conf /\ excl_ok read conf /\ incl_ok read conf
      /\ orphan_ok read conf /\ cell_tag_ok read conf
      /\ ~ umi_tag_ok read conf)
  /\ (check_read read conf = -21 <->
      mapq_ok read conf /\ excl_ok read conf /\ incl_ok read conf
      /\ orphan_ok read conf /\ cell_tag_ok read conf
      /\ umi_tag_ok read conf /\ ~ len_ok read conf)
  /\ sam.check_read read conf = check_read read conf.
Proof.
  check_read_cases read conf;
    repeat split; try discriminate; try reflexivity;
    intuition (try discriminate).
Qed.

(** A change that loosens the filter keeps every qualifying read. *)
Lemma loosened_qualifies {F} (c c' : Config F) (read : AlignedSegment) :
  loosened c c' -> qualifies read c -> qualifies read c'.
Proof.
  intros Hl (Hq & He & Hi & Ho & Hc & Hu & Hn).
  destruct Hl as [q Hle | n Hle | m Hm | m Hm];
    unfold qualifies, mapq_ok, excl_ok, incl_ok, orphan_ok, cell_tag_ok,
      umi_tag_ok, len_ok in *; simpl; repeat split; auto; try lia.
  - intros Hm0.
    assert (He0 : excl_flag c <> 0).
    { intros E. rewrite E, Z.land_0_r in Hm. congruence. }
    rewrite <- Hm, (Z.land_comm m), Z.land_assoc, (He He0).
    apply Z.land_0_l.
  - intros Hm0 Hz. destruct Hm as [[Hi0 Hsub] | ->]; [| congruence].
    apply (Hi Hi0).
    rewrite <- Hsub, (Z.land_comm (incl_flag c)), Z.land_assoc, Hz.
    apply Z.land_0_l.
Qed.

Lemma count_qualified_mono {F} (c c' : Config F) (reads : list AlignedSegment) :
  (forall read, check_read read c = 0 -> check_read read c' = 0) ->
  (count_qualified reads c <= count_qualified reads c')%nat.
Proof.
  intros Himp. unfold count_qualified.
  induction reads as [| read reads IH]; simpl; [lia |].
  destruct (Z.eqb_spec (check_read read c) 0) as [E | E].
  - rewrite (Himp _ E). simpl. lia.
  - destruct (check_read read c' =? 0); simpl; lia.
Qed.

(** C8 (as amended). For a fixed read set, lowering [min_mapq], lowering
    [min_len], removing bits from the exclusion mask (down to disabling it),
    adding bits to an inclusion mask that is in use, or disabling the
    inclusion mask, all other settings held equal, never decreases the
    number of reads for which [check_read] returns 0. *)
Theorem filter_monotone {F} (c c' : Config F) (reads : list AlignedSegment) :
  loosened c c' ->
  (count_qualified reads c <= count_qualified reads c')%nat.
Proof.
  intros Hl. apply count_qualified_mono. intros read.
  rewrite !check_read_qualifies.
  now apply loosened_qualifies.
Qed.

Lemma filter_monotone_witness :
  loosened Example.conf (with_excl_flag 1024 Example.conf)
  /\ (count_qualified Example.reads6 Example.conf
      <= count_qualified Example.reads6 (with_excl_flag 1024 Example.conf))%nat.
Proof.
  assert (Hl : loosened Example.conf (with_excl_flag 1024 Example.conf)).
  { apply loosen_excl. reflexivity. }
  split; [exact Hl |].
  exact (filter_monotone Example.conf _ Example.reads6 Hl).
Defined.

(** C8 (as stated) fails for the masks.  Widening the exclusion mask from
    0x400 to 0x500 rejects a secondary alignment (flag 0x100) that qualified
    before; enabling an inclusion mask (from 0 to 0x2) rejects a read without
    that bit. *)
Lemma widened_mask_rejects :
  let read := {| mapq := 60; flag := 256; tags := ∅; positions := [7; 8; 9];
                 base_calls := ∅ |} in
  let c := with_excl_flag 1024 Example.conf in
  (loosened_as_stated c (with_excl_flag 1280 c)
   /\ count_qualified [read] c = 1%nat
   /\ count_qualified [read] (with_excl_flag 1280 c) = 0%nat)
  /\ (loosened_as_stated c (with_incl_flag 2 c)
      /\ count_qualified [read] c = 1%nat
      /\ count_qualified [read] (with_incl_flag 2 c) = 0%nat).
Proof.
  cbv zeta. split; (split; [| split; reflexivity]).
  - apply stated_excl. left. reflexivity.
  - apply stated_incl. left. reflexivity.
Qed.

(* ===================================================================== *)
(** * Fetching reads *)
(* ===================================================================== *)

Lemma alt_chrom_strip (s : string) : sam.alt_chrom ("chr" +:+ s) = s.
Proof. destruct s; reflexivity. Qed.

Lemma alt_chrom_add (chrom : string) :
  String.prefix "chr" chrom = false -> sam.alt_chrom chrom = "chr" +:+ chrom.
Proof. unfold sam.alt_chrom. now intros ->. Qed.

(** C9 (as amended). [sam_fetch] passes the 1-based start minus one (and
    the end as it is) to the underlying fetch.  It returns the iterator of
    the first attempt, made with the chromosome name as given, when that
    call returns an object that is true, also when that iterator yields no
    read; when the call raises or returns an object that is false, the
    fetch is tried once more with the alternate name, "chr" removed if the
    name starts with it and added otherwise, and the iterator of that
    attempt is returned when it is true; the result is None exactly when
    each of the two calls raises or returns an object that is false. *)
Theorem sam_fetch_spec (sam : sam.AlignmentFile) (chrom : string)
    (start end_ : option Z) :
  let start0 := (fun s => s - 1) <$> start in
  let first := attempt (sam.fetch sam chrom start0 end_) in
  let second := attempt (sam.fetch sam (sam.alt_chrom chrom) start0 end_) in
  sam.sam_fetch sam chrom start end_
    = match first with Some itr => Some itr | None => second end
  /\ (sam.sam_fetch sam chrom start end_ = None
      <-> first = None /\ second = None)
  /\ (forall s, chrom = "chr" +:+ s -> sam.alt_chrom chrom = s)
  /\ (String.prefix "chr" chrom = false ->
      sam.alt_chrom chrom = "chr" +:+ chrom)
  /\ (forall itr,
        sam.fetch sam chrom start0 end_ = Val itr ->
        sam.it_bool itr = true ->
        sam.sam_fetch sam chrom start end_ = Some itr).
Proof.
  cbv zeta.
  assert (Heq : sam.sam_fetch sam chrom start end_
    = match attempt (sam.fetch sam chrom ((fun s => s - 1) <$> start) end_) with
      | Some itr => Some itr
      | None => attempt (sam.fetch sam (sam.alt_chrom chrom)
                           ((fun s => s - 1) <$> start) end_)
      end).
  { unfold sam.sam_fetch, attempt. destruct start as [s |]; simpl;
      destruct (sam.fetch sam chrom _ end_) as [itr | e];
      try destruct (sam.it_bool itr); reflexivity. }
  split; [exact Heq |]. split; [| split; [| split]].
  - rewrite Heq.
    destruct (attempt (sam.fetch sam chrom _ end_)); [| tauto].
    split; [discriminate | intros [? _]; discriminate].
  - intros s ->. apply alt_chrom_strip.
  - apply alt_chrom_add.
  - intros itr Hf Hb. rewrite Heq, Hf. unfold attempt. now rewrite Hb.
Qed.

Lemma sam_fetch_spec_witness :
  String.prefix "chr" "1" = false
  /\ sam.alt_chrom "1" = "chr1"
  /\ sam.sam_fetch (Example.sam_of Example.reads6) "1" (Some 1000) (Some 1000)
     = Some {| sam.it_bool := true; sam.it_reads := Example.reads6 |}.
Proof.
  pose proof (sam_fetch_spec (Example.sam_of Example.reads6) "1"
                (Some 1000) (Some 1000)) as (Heq & _ & _ & Halt & _).
  split; [reflexivity |]. split; [exact (Halt eq_refl) |].
  rewrite Heq. reflexivity.
Defined.

(** C9 (as stated) fails where it speaks of an empty result.  A file that
    returns, for "chr1", an iterator that is true and yields no read, and
    that holds reads under "1": [sam_fetch] asked for "chr1" returns the
    iterator without reads, with no second attempt; and when both names
    give such an iterator the result is that iterator, not None. *)
Lemma empty_iterator_returned :
  let empty := {| sam.it_bool := true; sam.it_reads := [] |} in
  let full := {| sam.it_bool := true; sam.it_reads := Example.reads6 |} in
  let sam1 := {| sam.fetch := fun chrom _ _ =>
                   if String.eqb chrom "chr1" then Val empty else Val full |} in
  let sam2 := {| sam.fetch := fun _ _ _ => Val empty |} in
  (sam.fetch sam1 (sam.alt_chrom "chr1") (Some 999) (Some 1000) = Val full
   /\ sam.sam_fetch sam1 "chr1" (Some 1000) (Some 1000) = Some empty)
  /\ (sam.it_reads empty = []
      /\ sam.sam_fetch sam2 "chr1" (Some 1000) (Some 1000) <> None).
Proof.
  cbv zeta. repeat split; try reflexivity. discriminate.
Qed.

(* ===================================================================== *)
(** * The SNP gate *)
(* ===================================================================== *)

Section Gate.
Context {F : Type} {PF : PyFloat F} {M FM : Type}
        {SO : SNPMCount.Ops M} {FO : FeatureMCount.Ops FM M}.
Implicit Types (snp : SNP) (conf : Config F) (mcnt : M) (fm : FM).



Lemma plp_snp_gate_inv snp mcnt conf code mcnt' :
  plp_snp_gate snp mcnt conf = Val (code, mcnt') ->
  mcnt' = mcnt /\ (code = 0 \/ code = 3 \/ code = 5).
Proof.
  unfold plp_snp_gate.
  destruct (_ <? _); [intros [= <- <-]; auto |].
  destruct (tcount_of mcnt (snp_ref snp)); [| discriminate].
  destruct (tcount_of mcnt (snp_alt snp)); [| discriminate].
  destruct (int_lt _ _); intros [= <- <-]; auto.
Qed.

Lemma fet1_snps_failed snp snps sam_list mcnt fm conf code mcnt' :
  plp_snp snp sam_list mcnt conf = Val (code, mcnt') ->
  code < 0 ->
  fet1_snps (snp :: snps) sam_list mcnt fm conf
    = Val (Return (-3) (mcnt', fm)).
Proof.
  intros Hp Hc. simpl. rewrite Hp.
  now rewrite (proj2 (Z.ltb_lt _ _) Hc).
Qed.

Lemma fet1_snps_filtered snp snps sam_list mcnt fm conf code mcnt' :
  plp_snp snp sam_list mcnt conf = Val (code, mcnt') ->
  0 < code ->
  fet1_snps (snp :: snps) sam_list mcnt fm conf
    = fet1_snps snps sam_list mcnt' fm conf.
Proof.
  intros Hp Hc. simpl. rewrite Hp.
  rewrite (proj2 (Z.ltb_ge code 0)) by lia.
  now rewrite (proj2 (Z.ltb_lt _ _) Hc).
Qed.


End Gate.



(* ===================================================================== *)
(** * Counts of a region *)
(* ===================================================================== *)

Lemma zero_dict_from (smps : list string) (d : gmap string Z) (smp : string) :
  foldl (fun d smp => <[smp := 0]> d) d smps !! smp
    = if decide (smp ∈ smps) then Some 0 else d !! smp.
Proof.
  revert d. induction smps as [| s smps IH]; intros d.
  - cbn [foldl]. case_decide as Hin; [| done]. now apply elem_of_nil in Hin.
  - cbn [foldl]. rewrite IH.
    destruct (decide (smp ∈ smps)) as [Hin | Hnin];
      destruct (decide (smp ∈ s :: smps)) as [Hin' | Hnin'];
      rewrite elem_of_cons in *; try tauto.
    + destruct Hin' as [-> | ?]; [| tauto]. apply lookup_insert_eq.
    + apply lookup_insert_ne. intros ->. tauto.
Qed.

Lemma zero_dict_lookup (smps : list string) (smp : string) :
  zero_dict smps !! smp = if decide (smp ∈ smps) then Some 0 else None.
Proof. unfold zero_dict. now rewrite zero_dict_from, lookup_empty. Qed.

(** What the loop over [cell_cnt.items()] leaves under each key. *)
Lemma fet1_counts_lookup {F} (conf : Config F) (cells : gmap string SCount)
    (smp : string) :
  let cnt := fet1_counts conf cells in
  let unseen := zero_dict (samples conf) !! smp in
  reg_alt_cnt cnt !! smp = from_option (Some ∘ emitted_alt conf) unseen (cells !! smp)
  /\ reg_dp_cnt cnt !! smp = from_option (Some ∘ emitted_dp conf) unseen (cells !! smp)
  /\ reg_oth_cnt cnt !! smp = from_option (Some ∘ other_supporting) unseen (cells !! smp).
Proof.
  cbv zeta. unfold fet1_counts. revert smp.
  apply (map_fold_weak_ind
    (fun cnt cells => forall smp,
       reg_alt_cnt cnt !! smp
         = from_option (Some ∘ emitted_alt conf)
             (zero_dict (samples conf) !! smp) (cells !! smp)
       /\ reg_dp_cnt cnt !! smp
          = from_option (Some ∘ emitted_dp conf)
              (zero_dict (samples conf) !! smp) (cells !! smp)
       /\ reg_oth_cnt cnt !! smp
          = from_option (Some ∘ other_supporting)
              (zero_dict (samples conf) !! smp) (cells !! smp))).
  - intros smp. now rewrite lookup_empty.
  - intros k scnt m cnt Hk IH smp. specialize (IH smp).
    unfold fet1_sample, emitted_alt, emitted_dp in *. revert IH.
    destruct (decide (k = smp)) as [-> | Hne].
    + rewrite lookup_insert_eq. intros _.
      destruct (no_dup_hap conf); simpl;
        rewrite ?lookup_total_insert_eq, ?lookup_insert_eq;
        repeat split; f_equal; lia.
    + rewrite (lookup_insert_ne m) by done.
      destruct (no_dup_hap conf); simpl;
        rewrite ?lookup_insert_ne by done; auto.
Qed.

Lemma fet1_counts_keys {F} (conf : Config F) (cells : gmap string SCount)
    (smp : string) :
  smp ∈ samples conf ->
  is_Some (reg_alt_cnt (fet1_counts conf cells) !! smp)
  /\ is_Some (reg_dp_cnt (fet1_counts conf cells) !! smp)
  /\ is_Some (reg_oth_cnt (fet1_counts conf cells) !! smp).
Proof.
  intros Hin.
  destruct (fet1_counts_lookup conf cells smp) as (-> & -> & ->).
  rewrite zero_dict_lookup, decide_True by done.
  destruct (cells !! smp); simpl; eauto.
Qed.

Section Fet1.
Context {F : Type} {PF : PyFloat F} {M FM : Type}
        {SO : SNPMCount.Ops M} {FO : FeatureMCount.Ops FM M}.

(** A call of [fc_fet1] that hands back dictionaries returned code 0 and
    built them from the finalized feature machine. *)
Lemma fc_fet1_inv (reg : Region) sam_list (sm : M) (fm : FM) (conf : Config F)
    code cnt sm' fm' :
  fc_fet1 reg sam_list sm fm conf = Val (code, Some cnt, (sm', fm')) ->
  code = 0 /\ cnt = fet1_counts conf (FeatureMCount.cell_cnt fm').
Proof.
  unfold fc_fet1.
  destruct (fet1_snps _ _ _ _ _) as [[[sm1 fm1] | c ms] | e]; try discriminate.
  destruct (FeatureMCount.stat fm1) as [r fm2].
  destruct (r <? 0); [discriminate |].
  intros [= <- <- <- <-]. auto.
Qed.

(** A non-negative code comes with dictionaries. *)
Lemma fc_fet1_code (reg : Region) sam_list (sm : M) (fm : FM) (conf : Config F)
    code cnt ms :
  fc_fet1 reg sam_list sm fm conf = Val (code, cnt, ms) ->
  (code < 0 /\ cnt = None)
  \/ (code = 0 /\ cnt = Some (fet1_counts conf (FeatureMCount.cell_cnt (snd ms)))).
Proof.
  unfold fc_fet1.
  destruct (fet1_snps _ _ _ _ _) as [[[sm1 fm1] | c ms'] | e] eqn:Hs;
    try discriminate.
  - destruct (FeatureMCount.stat fm1) as [r fm2].
    destruct (r <? 0); intros [= <- <- <-]; [left | right]; split; auto; lia.
  - intros [= <- <- <-]. left. split; [| reflexivity].
    clear -Hs. revert sm fm Hs.
    induction (snp_list reg) as [| snp snps IH]; intros sm fm; simpl;
      [discriminate |].
    destruct (plp_snp snp sam_list sm conf) as [[r sm1] | e]; [| discriminate].
    destruct (r <? 0); [intros [= <- _]; lia |].
    destruct (0 <? r); [apply IH |].
    destruct (FeatureMCount.push_snp fm sm1) as [r' fm1].
    destruct (r' <? 0); [intros [= <- _]; lia | apply IH].
Qed.

End Fet1.

(** C1. When [fc_fet1] returns its dictionaries for a region, every sample
    tallied by the feature machine has: alt_count equal to its
    alternative-supporting count, plus its duplicate-haplotype count unless
    [no_dup_hap] is set; dp_count equal to its reference-supporting plus
    alternative-supporting counts, plus twice its duplicate-haplotype
    count unless [no_dup_hap] is set; oth_count equal to its
    other-base-supporting count. *)
Theorem depth_identity {F M FM : Type} {PF : PyFloat F}
    {SO : SNPMCount.Ops M} {FO : FeatureMCount.Ops FM M}
    (reg : Region) (sam_list : list sam.AlignmentFile) (sm : M) (fm : FM)
    (conf : Config F) code cnt sm' fm' (smp : string) (scnt : SCount) :
  fc_fet1 reg sam_list sm fm conf = Val (code, Some cnt, (sm', fm')) ->
  FeatureMCount.cell_cnt fm' !! smp = Some scnt ->
  reg_alt_cnt cnt !! smp
    = Some (if no_dup_hap conf then allele_cnt scnt 1
            else allele_cnt scnt 1 + allele_cnt scnt 2)
  /\ reg_dp_cnt cnt !! smp
     = Some (if no_dup_hap conf then allele_cnt scnt 0 + allele_cnt scnt 1
             else allele_cnt scnt 0 + allele_cnt scnt 1 + 2 * allele_cnt scnt 2)
  /\ reg_oth_cnt cnt !! smp = Some (allele_cnt scnt (-1))
  /\ reg_alt_cnt cnt !! smp = Some (emitted_alt conf scnt)
  /\ reg_dp_cnt cnt !! smp = Some (emitted_dp conf scnt)
  /\ reg_oth_cnt cnt !! smp = Some (other_supporting scnt).
Proof.
  intros Hf Hc. apply fc_fet1_inv in Hf as [_ ->].
  destruct (fet1_counts_lookup conf (FeatureMCount.cell_cnt fm') smp)
    as (Ha & Hd & Ho).
  rewrite Hc in Ha, Hd, Ho. simpl in Ha, Hd, Ho.
  rewrite Ha, Hd, Ho. unfold emitted_alt, emitted_dp, allele_cnt.
  destruct (no_dup_hap conf); repeat split; f_equal; lia.
Qed.

(** [fc_fet1] returns on the region of example 6. *)
Lemma fet1_gene_returns :
  Example.fet1_gene
  = Val (0, Some Example.counts_gene,
         (fst Example.machines_gene, snd Example.machines_gene)).
Proof. vm_compute. reflexivity. Qed.

(** Example 6 of the specification: six A and four G give sample S1 the
    counts AD 4 and DP 10. *)
Lemma depth_identity_witness :
  Example.fet1_gene
    = Val (0, Some Example.counts_gene,
           (fst Example.machines_gene, snd Example.machines_gene))
  /\ f_cells (snd Example.machines_gene) !! "S1"
     = Some {| ref_supporting := 6; alt_supporting := 4; dup_count := 0;
               other_supporting := 0 |}
  /\ reg_alt_cnt Example.counts_gene !! "S1" = Some 4
  /\ reg_dp_cnt Example.counts_gene !! "S1" = Some 10
  /\ reg_oth_cnt Example.counts_gene !! "S1" = Some 0.
Proof.
  pose proof fet1_gene_returns as H1.
  assert (H2 : f_cells (snd Example.machines_gene) !! "S1"
               = Some {| ref_supporting := 6; alt_supporting := 4;
                         dup_count := 0; other_supporting := 0 |})
    by (vm_compute; reflexivity).
  split; [exact H1 |]. split; [exact H2 |].
  destruct (depth_identity (PF := Ratio_ops) (SO := SnpTally_ops)
              (FO := FeatureTally_ops) _ _ _ _ _ _ _ _ _ _ _ H1 H2)
    as (Ha & Hd & Ho & _).
  auto.
Defined.

(* ===================================================================== *)
(** * Strings and lines *)
(* ===================================================================== *)

Lemma append_cons c s t : String c s +:+ t = String c (s +:+ t).
Proof. reflexivity. Qed.

Lemma append_nil_r s : s +:+ EmptyString = s.
Proof. induction s as [| c s IH]; [reflexivity |]. now rewrite append_cons, IH. Qed.

Lemma append_assoc s t u : (s +:+ t) +:+ u = s +:+ (t +:+ u).
Proof.
  induction s as [| c s IH]; [reflexivity |]. now rewrite !append_cons, IH.
Qed.

Lemma append_eq_nil s t : s +:+ t = EmptyString <-> s = EmptyString /\ t = EmptyString.
Proof.
  destruct s as [| c s].
  - change (EmptyString +:+ t) with t. tauto.
  - rewrite append_cons. split; [discriminate | intros [? _]; discriminate].
Qed.

Lemma py_nonempty_false s : py_nonempty s = false <-> s = EmptyString.
Proof.
  unfold py_nonempty. rewrite negb_false_iff. apply String.eqb_eq.
Qed.

Lemma count_lines_app s t :
  count_lines (s +:+ t) = (count_lines s + count_lines t)%nat.
Proof.
  induction s as [| c s IH]; [reflexivity |].
  rewrite append_cons. cbn [count_lines]. rewrite IH. lia.
Qed.

Lemma count_lines_uint u : count_lines (NilEmpty.string_of_uint u) = O.
Proof. induction u; simpl; auto. Qed.

Lemma count_lines_fmt_d z : count_lines (fmt_d z) = O.
Proof.
  unfold fmt_d, NilZero.string_of_int, NilZero.string_of_uint,
    NilEmpty.string_of_int.
  destruct (Z.to_int z) as [u | u]; destruct u; try reflexivity;
    cbn [count_lines]; apply count_lines_uint.
Qed.

Lemma count_lines_triplet a b c : count_lines (fmt_triplet a b c) = 1%nat.
Proof.
  unfold fmt_triplet. rewrite !count_lines_app, !count_lines_fmt_d.
  reflexivity.
Qed.

Lemma fmt_triplet_nonempty a b c : fmt_triplet a b c <> EmptyString.
Proof.
  intros E. pose proof (count_lines_triplet a b c) as Hc.
  rewrite E in Hc. discriminate.
Qed.

Lemma content_snoc ws s : content (ws ++ [s]) = content ws +:+ s.
Proof.
  induction ws as [| w ws IH]; simpl.
  - unfold content. simpl. now rewrite append_nil_r.
  - unfold content in *. simpl. now rewrite IH, append_assoc.
Qed.

Lemma content_imap_nil {A} (f : nat -> A -> string) (l : list A) :
  content (imap f l) = EmptyString <-> forall i x, l !! i = Some x -> f i x = EmptyString.
Proof.
  revert f. induction l as [| a l IH]; intros f.
  - split; [intros _ i x Hl; now rewrite lookup_nil in Hl | reflexivity].
  - rewrite imap_cons. unfold content in *. cbn [foldr].
    rewrite append_eq_nil, IH. split.
    + intros [H0 HS] [| i] x Hl; simpl in Hl.
      * now injection Hl as <-.
      * now apply HS.
    + intros Hall. split; [now apply (Hall O) |].
      intros i x Hl. now apply (Hall (S i)).
Qed.

(* ===================================================================== *)
(** * Emission of a region *)
(* ===================================================================== *)

Lemma counted_append l l' td :
  counted l' (counted l td)
  = {| ret := ret td; nr_reg := nr_reg td;
       nr_ad := nr_ad td + Z.of_nat (count_lines (str_ad l +:+ str_ad l'));
       nr_dp := nr_dp td + Z.of_nat (count_lines (str_dp l +:+ str_dp l'));
       nr_oth := nr_oth td + Z.of_nat (count_lines (str_oth l +:+ str_oth l')) |}.
Proof.
  unfold counted. simpl. rewrite !count_lines_app. f_equal; lia.
Qed.

(** One iteration of the sample loop appends the specified line of the
    sample to each stream and counts it. *)
Lemma emit_sample_present reg_idx i smp cnt l td :
  is_Some (reg_alt_cnt cnt !! smp) -> is_Some (reg_dp_cnt cnt !! smp) ->
  is_Some (reg_oth_cnt cnt !! smp) ->
  let one := {| str_ad := spec_line (reg_alt_cnt cnt) cnt reg_idx i smp;
                str_dp := spec_line (reg_dp_cnt cnt) cnt reg_idx i smp;
                str_oth := spec_line (reg_oth_cnt cnt) cnt reg_idx i smp |} in
  emit_sample reg_idx i smp cnt (l, td)
    = Returned (append_Lines l one, counted one td).
Proof.
  intros [a Ha] [d Hd] [o Ho]. cbv zeta.
  unfold emit_sample, spec_line, considered, append_Lines, counted.
  rewrite !(lookup_total_correct _ _ _ Ha), !(lookup_total_correct _ _ _ Hd),
    !(lookup_total_correct _ _ _ Ho), Ha, Hd, Ho.
  destruct l as [sa sd so], td as [r nreg na nd no]. cbn [str_ad str_dp str_oth].
  destruct (Z.leb_spec (d + o) 0) as [Hle | Hgt].
  - rewrite (proj2 (Z.ltb_ge 0 (d + o))) by lia. simpl.
    rewrite !append_nil_r, !Z.add_0_r. reflexivity.
  - rewrite (proj2 (Z.ltb_lt 0 (d + o))) by lia. cbn [andb].
    destruct (0 <? a), (0 <? d), (0 <? o);
      cbn [push_ad push_dp push_oth str_ad str_dp str_oth
           ret nr_reg nr_ad nr_dp nr_oth count_lines];
      rewrite ?count_lines_triplet, ?append_nil_r;
      cbn [Z.of_nat Pos.of_succ_nat]; rewrite ?Z.add_0_r; reflexivity.
Qed.

Lemma emit_samples_present reg_idx smps cnt :
  keys_present cnt smps ->
  forall i l td,
    emit_samples reg_idx i smps cnt (l, td)
      = Returned (append_Lines l (spec_Lines_from cnt reg_idx i smps),
                  counted (spec_Lines_from cnt reg_idx i smps) td).
Proof.
  induction smps as [| smp smps IH]; intros Hk i l td.
  - cbn [emit_samples]. unfold append_Lines, counted, spec_Lines_from.
    destruct l, td; simpl. rewrite !append_nil_r, !Z.add_0_r. reflexivity.
  - cbn [emit_samples].
    destruct (Hk smp) as (Ha & Hd & Ho); [left |].
    rewrite emit_sample_present by assumption.
    rewrite IH by (intros s Hs; apply Hk; now right).
    assert (Hshift : forall count,
      content (imap (fun j => spec_line count cnt reg_idx (i + j)) (smp :: smps))
      = spec_line count cnt reg_idx i smp
        +:+ content (imap (fun j => spec_line count cnt reg_idx (S i + j)) smps)).
    { intros count. rewrite imap_cons. unfold content. cbn [foldr].
      rewrite Nat.add_0_r. do 2 f_equal. apply imap_ext. intros j x _.
      simpl. f_equal. lia. }
    unfold spec_Lines_from. rewrite !Hshift.
    rewrite counted_append. unfold append_Lines, counted.
    cbn [str_ad str_dp str_oth ret nr_reg nr_ad nr_dp nr_oth].
    rewrite !append_assoc. reflexivity.
Qed.

Lemma spec_Lines_from_0 cnt reg_idx smps :
  spec_Lines_from cnt reg_idx 0 smps = spec_Lines cnt reg_idx smps.
Proof. reflexivity. Qed.

(** The loop of a region, entered with empty strings. *)
Lemma emit_samples_spec reg_idx smps cnt td :
  keys_present cnt smps ->
  emit_samples reg_idx 0 smps cnt (empty_Lines, td)
    = Returned (spec_Lines cnt reg_idx smps,
                counted (spec_Lines cnt reg_idx smps) td).
Proof.
  intros Hk. rewrite (emit_samples_present _ _ _ Hk).
  rewrite spec_Lines_from_0. unfold append_Lines, empty_Lines.
  destruct (spec_Lines cnt reg_idx smps); reflexivity.
Qed.

Lemma spec_line_nil count cnt reg_idx i smp :
  spec_line count cnt reg_idx i smp = EmptyString
  <-> considered cnt smp && (0 <? count !!! smp) = false.
Proof.
  unfold spec_line. destruct (considered cnt smp && _).
  - split; [| discriminate]. intros E. now apply fmt_triplet_nonempty in E.
  - tauto.
Qed.

(** The write guard [if str_dp or str_oth] holds exactly when some sample
    is considered. *)
Lemma write_guard cnt reg_idx smps :
  py_nonempty (str_dp (spec_Lines cnt reg_idx smps))
    || py_nonempty (str_oth (spec_Lines cnt reg_idx smps))
  = existsb (considered cnt) smps.
Proof.
  apply eq_true_iff_eq. rewrite existsb_exists.
  rewrite <- not_false_iff_true, orb_false_iff, !py_nonempty_false.
  unfold spec_Lines, spec_lines. cbn [str_dp str_oth].
  rewrite !content_imap_nil. split.
  - intros Hn. destruct (existsb (considered cnt) smps) eqn:E.
    + now apply existsb_exists in E.
    + exfalso. apply Hn. 
      assert (Hall : forall smp, In smp smps -> considered cnt smp = false).
      { intros smp Hin. destruct (considered cnt smp) eqn:Ec; [| reflexivity].
        assert (existsb (considered cnt) smps = true)
          by (apply existsb_exists; eauto).
        congruence. }
      split; intros i smp Hl; apply spec_line_nil;
        rewrite (Hall smp); auto;
        apply list_elem_of_In; eapply list_elem_of_lookup_2; eauto.
  - intros (smp & Hin & Hc) [Hd Ho].
    apply list_elem_of_In, list_elem_of_lookup in Hin as [i Hl].
    pose proof (Hd i smp Hl) as Hd'. pose proof (Ho i smp Hl) as Ho'.
    apply spec_line_nil in Hd', Ho'.
    rewrite Hc in Hd', Ho'. simpl in Hd', Ho'.
    unfold considered in Hc. apply Z.ltb_lt in Hc.
    apply Z.ltb_ge in Hd', Ho'. lia.
Qed.

(** Without a considered sample the three strings are empty. *)
Lemma spec_Lines_unconsidered cnt reg_idx smps :
  existsb (considered cnt) smps = false ->
  spec_Lines cnt reg_idx smps = empty_Lines.
Proof.
  intros E.
  assert (Hall : forall i smp, smps !! i = Some smp -> considered cnt smp = false).
  { intros i smp Hl. destruct (considered cnt smp) eqn:Ec; [| reflexivity].
    assert (existsb (considered cnt) smps = true).
    { apply existsb_exists. exists smp. split; [| assumption].
      apply list_elem_of_In. eapply list_elem_of_lookup_2; eauto. }
    congruence. }
  unfold spec_Lines, spec_lines, empty_Lines.
  f_equal; apply content_imap_nil; intros i smp Hl; apply spec_line_nil;
    now rewrite (Hall i smp Hl).
Qed.

(* ===================================================================== *)
(** * The region loop *)
(* ===================================================================== *)

Section Regions.
Context {F : Type} {PF : PyFloat F} {M FM : Type}
        {SO : SNPMCount.Ops M} {FO : FeatureMCount.Ops FM M}.
Implicit Types (conf : Config F) (w : Worker M FM) (reg : Region).

Lemma fc_region_end conf sam_list reg_idx reg w :
  region_end conf sam_list reg_idx reg w
    (fc_region conf sam_list reg_idx reg w).
Proof.
  unfold fc_region. destruct (snp_list reg) as [| snp snps] eqn:Hs.
  - now apply end_no_snps.
  - assert (Hne : snp_list reg <> []) by (rewrite Hs; discriminate).
    destruct (fc_fet1 reg sam_list (snp_mcnt w) _ conf)
      as [[[code cnt] [sm fm]] | e] eqn:Hf.
    + destruct (fc_fet1_code _ _ _ _ _ _ _ _ Hf) as [[Hneg ->] | [-> ->]].
      * rewrite (proj2 (Z.ltb_lt _ _) Hneg). eapply end_aborted; eauto.
      * cbn [snd Z.ltb Z.compare].
        rewrite emit_samples_spec
          by (intros smp Hin; now apply fet1_counts_keys).
        rewrite write_guard. now apply end_counted.
    + now apply end_raised.
Qed.

Lemma fc_region_fp_reg conf sam_list reg_idx reg w :
  fp_reg (files (final (fc_region conf sam_list reg_idx reg w)))
    = (fp_reg (files w) ++ [str_reg reg])%list.
Proof.
  destruct (fc_region_end conf sam_list reg_idx reg w); simpl; try reflexivity.
  now destruct (existsb _ _).
Qed.

(** The three count streams receive one write each, or none. *)
Lemma fc_region_streams conf sam_list reg_idx reg w :
  let o := fc_region conf sam_list reg_idx reg w in
  (count_streams (final o) = count_streams w
   \/ exists l,
        count_streams (final o)
        = ((fp_ad (files w) ++ [str_ad l])%list,
           (fp_dp (files w) ++ [str_dp l])%list,
           (fp_oth (files w) ++ [str_oth l])%list))
  /\ (forall e w', o = Raised e w' ->
        count_streams w' = count_streams w
        /\ thdata w' = thdata w).
Proof.
  cbv zeta.
  destruct (fc_region_end conf sam_list reg_idx reg w); simpl;
    (split; [| intros e' w' [=]; subst; auto]); auto.
  destruct (existsb _ _); [right | left]; eauto.
Qed.

Lemma fc_region_excess conf sam_list reg_idx reg w :
  excess (final (fc_region conf sam_list reg_idx reg w)) = excess w.
Proof.
  destruct (fc_region_end conf sam_list reg_idx reg w); try reflexivity.
  unfold excess. cbn [final thdata files].
  destruct (existsb _ _) eqn:E.
  - cbn [write_counts write_reg fp_ad fp_dp fp_oth counted nr_ad nr_dp nr_oth].
    rewrite !content_snoc, !count_lines_app. f_equal; [f_equal |]; lia.
  - rewrite (spec_Lines_unconsidered _ _ _ E).
    cbn [write_reg fp_ad fp_dp fp_oth counted nr_ad nr_dp nr_oth empty_Lines
         str_ad str_dp str_oth count_lines Z.of_nat].
    rewrite !Z.add_0_r. reflexivity.
Qed.

(** A run of the loop that raises did so in one region, after the regions
    before it were completed. *)
Lemma fc_regions_raised conf sam_list regs : forall reg_idx w e w',
  fc_regions conf sam_list reg_idx regs w = Raised e w' ->
  exists pre reg post w1,
    regs = (pre ++ reg :: post)%list
    /\ fc_regions conf sam_list reg_idx pre w = Returned w1
    /\ fc_region conf sam_list (reg_idx + length pre) reg w1 = Raised e w'.
Proof.
  induction regs as [| reg regs IH]; intros reg_idx w e w'; simpl;
    [discriminate |].
  destruct (fc_region conf sam_list reg_idx reg w) as [w1 | e1 w1] eqn:Hr.
  - intros Hrest. apply IH in Hrest as (pre & r & post & w2 & -> & Hpre & Hl).
    exists (reg :: pre), r, post, w2. simpl. rewrite Hr.
    repeat split; auto. now rewrite <- Nat.add_succ_comm.
  - intros [= <- <-]. exists [], reg, regs, w. simpl.
    now rewrite Nat.add_0_r.
Qed.

Lemma fc_regions_fp_reg conf sam_list regs : forall reg_idx w w',
  fc_regions conf sam_list reg_idx regs w = Returned w' ->
  fp_reg (files w') = (fp_reg (files w) ++ map str_reg regs)%list.
Proof.
  induction regs as [| reg regs IH]; intros reg_idx w w'; simpl.
  - intros [= <-]. now rewrite app_nil_r.
  - pose proof (fc_region_fp_reg conf sam_list reg_idx reg w) as Hreg.
    destruct (fc_region conf sam_list reg_idx reg w) as [w1 | e1 w1];
      [| discriminate].
    intros Hrest. apply IH in Hrest. simpl in Hreg.
    now rewrite Hrest, Hreg, <- app_assoc.
Qed.

Lemma fc_regions_excess conf sam_list regs : forall reg_idx w,
  excess (final (fc_regions conf sam_list reg_idx regs w)) = excess w.
Proof.
  induction regs as [| reg regs IH]; intros reg_idx w; simpl; [reflexivity |].
  pose proof (fc_region_excess conf sam_list reg_idx reg w) as Hreg.
  destruct (fc_region conf sam_list reg_idx reg w) as [w1 | e1 w1];
    simpl in Hreg; [| exact Hreg].
  now rewrite IH.
Qed.

End Regions.

(** C7. Every region the loop reaches gets exactly one line in the region
    stream, whether or not it has SNPs and however its processing ends,
    formatted as chrom, tab, start, tab, end minus 1, tab, name, line feed.
    A worker that returns has written the lines of all regions of its list,
    one each, in list order; a worker stopped by an exception has written
    the lines of the regions up to the one it stopped in. *)
Theorem region_stream {F M FM : Type} {PF : PyFloat F}
    {SO : SNPMCount.Ops M} {FO : FeatureMCount.Ops FM M}
    (td : ThreadData) (conf : Config F) (sam_list : list sam.AlignmentFile)
    (reg_list : list Region) (sm : M) (fm : FM) :
  (forall reg,
     str_reg reg
     = reg_chrom reg +:+ TAB +:+ fmt_d (reg_start reg) +:+ TAB
         +:+ fmt_d (reg_end reg - 1) +:+ TAB +:+ reg_name reg +:+ LF)
  /\ (forall reg_idx reg (w : Worker M FM),
        fp_reg (files (final (fc_region conf sam_list reg_idx reg w)))
        = (fp_reg (files w) ++ [str_reg reg])%list)
  /\ (forall w,
        fc_features td conf sam_list reg_list sm fm = Returned w ->
        fp_reg (files w) = map str_reg reg_list)
  /\ (forall e w,
        fc_features td conf sam_list reg_list sm fm = Raised e w ->
        exists pre reg post,
          reg_list = (pre ++ reg :: post)%list
          /\ fp_reg (files w) = map str_reg (pre ++ [reg])%list).
Proof.
  split; [reflexivity |]. split; [apply fc_region_fp_reg |].
  unfold fc_features.
  destruct (fc_regions conf sam_list 0 reg_list (opened td sm fm))
    as [w1 | e1 w1] eqn:Hrun.
  - split; [| discriminate]. intros w [= <-]. cbn [files].
    now rewrite (fc_regions_fp_reg _ _ _ _ _ _ Hrun).
  - split; [discriminate |]. intros e w [= <- <-].
    apply fc_regions_raised in Hrun as (pre & reg & post & w2 & -> & Hpre & Hl).
    exists pre, reg, post. split; [reflexivity |].
    pose proof (fc_region_fp_reg conf sam_list (0 + length pre) reg w2) as Hreg.
    rewrite Hl in Hreg. cbn [final] in Hreg.
    rewrite Hreg, (fc_regions_fp_reg _ _ _ _ _ _ Hpre), map_app.
    reflexivity.
Qed.

(** The run of example 6 followed by a region without SNPs: two regions,
    two lines. *)
Lemma region_stream_witness :
  fp_reg (files (final (Example.run SnpTally_ops Example.reads6
                          [Example.gene; Example.desert])))
  = map str_reg [Example.gene; Example.desert].
Proof.
  refine (proj1 (proj2 (proj2 (region_stream
            (PF := Ratio_ops) (SO := SnpTally_ops) (FO := FeatureTally_ops)
            Example.td0 Example.conf [Example.sam_of Example.reads6]
            [Example.gene; Example.desert] Example.tally0 Example.feature0)))
          _ _).
  vm_compute. reflexivity.
Defined.

(** C5. The body of the region loop either appends one string, possibly
    empty, to each of the three count streams, or leaves all three as
    they were; when it raises, it leaves all three and the record counters
    as they were.  Hence the count streams of a worker stopped by an
    exception are those left by the regions completed before, with nothing
    of the region it stopped in. *)
Theorem region_atomic {F M FM : Type} {PF : PyFloat F}
    {SO : SNPMCount.Ops M} {FO : FeatureMCount.Ops FM M}
    (conf : Config F) (sam_list : list sam.AlignmentFile) :
  (forall reg_idx reg (w : Worker M FM),
     let o := fc_region conf sam_list reg_idx reg w in
     (count_streams (final o) = count_streams w
      \/ exists l,
           count_streams (final o)
           = ((fp_ad (files w) ++ [str_ad l])%list,
              (fp_dp (files w) ++ [str_dp l])%list,
              (fp_oth (files w) ++ [str_oth l])%list))
     /\ (forall e w', o = Raised e w' ->
           count_streams w' = count_streams w /\ thdata w' = thdata w))
  /\ (forall td reg_list (sm : M) (fm : FM) e w',
        fc_features td conf sam_list reg_list sm fm = Raised e w' ->
        exists pre reg post w1,
          reg_list = (pre ++ reg :: post)%list
          /\ fc_regions conf sam_list 0 pre (opened td sm fm) = Returned w1
          /\ fc_region conf sam_list (length pre) reg w1 = Raised e w'
          /\ count_streams w' = count_streams w1
          /\ thdata w' = thdata w1).
Proof.
  split; [intros; apply fc_region_streams |].
  intros td reg_list sm fm e w'. unfold fc_features.
  destruct (fc_regions conf sam_list 0 reg_list (opened td sm fm))
    as [w1 | e1 w1] eqn:Hrun; [discriminate |].
  intros [= <- <-].
  apply fc_regions_raised in Hrun as (pre & reg & post & w2 & -> & Hpre & Hl).
  exists pre, reg, post, w2. simpl in Hl.
  destruct (proj2 (fc_region_streams conf sam_list (length pre) reg w2) _ _ Hl).
  auto.
Qed.

(** A region that aborts in a worker with a corrupted tally: the count
    streams and the counters stay as the region found them. *)
Lemma region_atomic_witness :
  let w := opened (M := SnpTally) (FM := FeatureTally)
             Example.td0 Example.tally0 Example.feature0 in
  let o := fc_region (PF := Ratio_ops) (SO := corrupt_SnpTally_ops)
             (FO := FeatureTally_ops) Example.conf
             [Example.sam_of Example.reads6] 0 Example.gene w in
  o = Raised (RuntimeError "errcode -9") (final o)
  /\ count_streams (final o) = count_streams w
  /\ thdata (final o) = thdata w.
Proof.
  cbv zeta.
  assert (Hrun :
    fc_region (PF := Ratio_ops) (SO := corrupt_SnpTally_ops)
      (FO := FeatureTally_ops) Example.conf
      [Example.sam_of Example.reads6] 0 Example.gene
      (opened Example.td0 Example.tally0 Example.feature0)
    = Raised (RuntimeError "errcode -9")
        (final (fc_region (PF := Ratio_ops) (SO := corrupt_SnpTally_ops)
                  (FO := FeatureTally_ops) Example.conf
                  [Example.sam_of Example.reads6] 0 Example.gene
                  (opened Example.td0 Example.tally0 Example.feature0))))
    by (vm_compute; reflexivity).
  split; [exact Hrun |].
  exact (proj2 (proj1 (region_atomic (PF := Ratio_ops)
                         (SO := corrupt_SnpTally_ops) (FO := FeatureTally_ops)
                         Example.conf [Example.sam_of Example.reads6])
                  0%nat Example.gene
                  (opened Example.td0 Example.tally0 Example.feature0))
           _ _ Hrun).
Defined.

(** A region for which [fc_fet1] has returned its dictionaries: the sample
    loop builds the specified lines, and the three strings are written
    exactly when some sample is considered. *)
Lemma fc_region_emits {F M FM : Type} {PF : PyFloat F}
    {SO : SNPMCount.Ops M} {FO : FeatureMCount.Ops FM M}
    (conf : Config F) (sam_list : list sam.AlignmentFile) (reg_idx : nat)
    (reg : Region) (w : Worker M FM) code cnt sm fm :
  snp_list reg <> [] ->
  fc_fet1 reg sam_list (snp_mcnt w)
    (snd (FeatureMCount.add_region (mcnt w) reg)) conf
    = Val (code, Some cnt, (sm, fm)) ->
  let l := spec_Lines cnt reg_idx (samples conf) in
  let fs := write_reg (str_reg reg) (files w) in
  emit_samples reg_idx 0 (samples conf) cnt (empty_Lines, thdata w)
    = Returned (l, counted l (thdata w))
  /\ fc_region conf sam_list reg_idx reg w
     = Returned {| thdata := counted l (thdata w);
                   files := if existsb (considered cnt) (samples conf)
                            then write_counts l fs else fs;
                   snp_mcnt := sm; mcnt := fm |}
  /\ (existsb (considered cnt) (samples conf) = true ->
      exists smp, smp ∈ samples conf
        /\ (reg_dp_cnt cnt !!! smp <> 0 \/ reg_oth_cnt cnt !!! smp <> 0)).
Proof.
  intros Hne Hf. cbv zeta.
  destruct (fc_fet1_inv _ _ _ _ _ _ _ _ _ Hf) as [-> Hcnt].
  assert (Hk : keys_present cnt (samples conf)).
  { intros smp Hin. rewrite Hcnt. now apply fet1_counts_keys. }
  split; [now apply emit_samples_spec |]. split.
  - unfold fc_region. destruct (snp_list reg) as [| snp snps]; [congruence |].
    rewrite Hf. cbn [Z.ltb Z.compare].
    rewrite (emit_samples_spec _ _ _ _ Hk), write_guard. reflexivity.
  - intros Hex. apply existsb_exists in Hex as (smp & Hin & Hc).
    exists smp. split; [now apply list_elem_of_In |].
    unfold considered in Hc. apply Z.ltb_lt in Hc. lia.
Qed.

(* ===================================================================== *)
(** * Counters and lines *)
(* ===================================================================== *)

Lemma fet1_counts_alt_le_dp {F} (conf : Config F) (cells : gmap string SCount)
    (smp : string) a d :
  counters_nonneg cells ->
  reg_alt_cnt (fet1_counts conf cells) !! smp = Some a ->
  reg_dp_cnt (fet1_counts conf cells) !! smp = Some d ->
  a <= d.
Proof.
  intros Hnn.
  destruct (fet1_counts_lookup conf cells smp) as (-> & -> & _).
  destruct (cells !! smp) as [scnt |] eqn:Hc; simpl.
  - destruct (Hnn _ _ Hc) as (Hr & _ & Hd & _).
    unfold emitted_alt, emitted_dp.
    destruct (no_dup_hap conf); intros [= <-] [= <-]; lia.
  - rewrite zero_dict_lookup. case_decide; intros [= <-] [= <-]. lia.
Qed.

(** An iteration that returns had its three entries. *)
Lemma emit_sample_returned reg_idx i smp cnt st st' :
  emit_sample reg_idx i smp cnt st = Returned st' ->
  is_Some (reg_alt_cnt cnt !! smp) /\ is_Some (reg_dp_cnt cnt !! smp)
  /\ is_Some (reg_oth_cnt cnt !! smp).
Proof.
  unfold emit_sample.
  destruct (reg_alt_cnt cnt !! smp), (reg_dp_cnt cnt !! smp),
    (reg_oth_cnt cnt !! smp); try discriminate; eauto.
Qed.

Lemma emit_sample_ad_dp {F} (conf : Config F) (cells : gmap string SCount)
    reg_idx i smp l td l' td' :
  counters_nonneg cells ->
  emit_sample reg_idx i smp (fet1_counts conf cells) (l, td)
    = Returned (l', td') ->
  str_ad l' <> str_ad l ->
  str_ad l' = str_ad l +:+ fmt_triplet (Z.of_nat reg_idx + 1) (Z.of_nat i + 1)
                             (reg_alt_cnt (fet1_counts conf cells) !!! smp)
  /\ str_dp l' = str_dp l +:+ fmt_triplet (Z.of_nat reg_idx + 1) (Z.of_nat i + 1)
                                (reg_dp_cnt (fet1_counts conf cells) !!! smp).
Proof.
  intros Hnn He Hne.
  destruct (emit_sample_returned _ _ _ _ _ _ He) as ([a Ha] & [d Hd] & Ho).
  rewrite emit_sample_present in He by eauto.
  injection He as <- <-. cbn [append_Lines str_ad str_dp] in *.
  pose proof (fet1_counts_alt_le_dp conf cells smp a d Hnn Ha Hd) as Hle.
  unfold spec_line in *.
  rewrite (lookup_total_correct _ _ _ Ha), (lookup_total_correct _ _ _ Hd) in *.
  destruct (considered _ smp); cbn [andb] in *;
    [| now rewrite append_nil_r in Hne].
  destruct (Z.ltb_spec 0 a); [| now rewrite append_nil_r in Hne].
  rewrite (proj2 (Z.ltb_lt 0 d)) by lia. auto.
Qed.

Section Counters.
Context {F : Type} {PF : PyFloat F} {M FM : Type}
        {SO : SNPMCount.Ops M} {FO : FeatureMCount.Ops FM M}.

Lemma fc_features_excess (td : ThreadData) (conf : Config F) sam_list reg_list
    (sm : M) (fm : FM) :
  excess (final (fc_features td conf sam_list reg_list sm fm))
  = (nr_ad td, nr_dp td, nr_oth td).
Proof.
  pose proof (fc_regions_excess conf sam_list reg_list 0 (opened td sm fm))
    as Hx.
  unfold fc_features.
  destruct (fc_regions conf sam_list 0 reg_list (opened td sm fm));
    cbn [final] in *.
  - unfold excess in *. cbn [thdata files nr_ad nr_dp nr_oth] in *.
    rewrite Hx. cbn. rewrite !Z.sub_0_r. reflexivity.
  - rewrite Hx. unfold excess. cbn. rewrite !Z.sub_0_r. reflexivity.
Qed.

End Counters.

(** C10. If the four counters of every sample tallied by the feature
    machine are non-negative, then in the dictionaries built by [fc_fet1]
    the alt_count of a sample is at most its dp_count, with and without
    duplicate-haplotype counting, and an iteration of the sample loop that
    appends an AD line appends the DP line of the same region and sample.
    Whether the worker returns or is stopped by an exception, the counters
    nr_ad, nr_dp and nr_oth have grown by exactly the numbers of lines in
    the AD, DP and OTH files: no line is counted without being written. *)
Theorem counters_match_lines {F M FM : Type} {PF : PyFloat F}
    {SO : SNPMCount.Ops M} {FO : FeatureMCount.Ops FM M}
    (conf : Config F) :
  (forall cells : gmap string SCount,
     counters_nonneg cells ->
     (forall smp a d,
        reg_alt_cnt (fet1_counts conf cells) !! smp = Some a ->
        reg_dp_cnt (fet1_counts conf cells) !! smp = Some d ->
        a <= d)
     /\ (forall reg_idx i smp l td l' td',
           emit_sample reg_idx i smp (fet1_counts conf cells) (l, td)
             = Returned (l', td') ->
           str_ad l' <> str_ad l ->
           str_ad l'
           = str_ad l +:+ fmt_triplet (Z.of_nat reg_idx + 1) (Z.of_nat i + 1)
                            (reg_alt_cnt (fet1_counts conf cells) !!! smp)
           /\ str_dp l'
              = str_dp l +:+ fmt_triplet (Z.of_nat reg_idx + 1) (Z.of_nat i + 1)
                               (reg_dp_cnt (fet1_counts conf cells) !!! smp)))
  /\ (forall td sam_list reg_list (sm : M) (fm : FM),
        let w := final (fc_features td conf sam_list reg_list sm fm) in
        nr_ad (thdata w)
        = nr_ad td + Z.of_nat (count_lines (content (fp_ad (files w))))
        /\ nr_dp (thdata w)
           = nr_dp td + Z.of_nat (count_lines (content (fp_dp (files w))))
        /\ nr_oth (thdata w)
           = nr_oth td + Z.of_nat (count_lines (content (fp_oth (files w))))).
Proof.
  split.
  - intros cells Hnn. split.
    + intros smp a d. now apply fet1_counts_alt_le_dp.
    + intros. eapply emit_sample_ad_dp; eauto.
  - intros td sam_list reg_list sm fm. cbv zeta.
    pose proof (fc_features_excess td conf sam_list reg_list sm fm) as Hx.
    unfold excess in Hx. injection Hx as Ha Hd Ho. lia.
Qed.

(** Example 6 of the specification: one AD line and one DP line counted and
    written, AD 4 within DP 10. *)
Lemma counters_match_lines_witness :
  counters_nonneg (f_cells (snd Example.machines_gene))
  /\ reg_alt_cnt Example.counts_gene !!! "S1"
     <= reg_dp_cnt Example.counts_gene !!! "S1"
  /\ nr_ad (thdata (final (Example.run SnpTally_ops Example.reads6
                             [Example.gene; Example.desert]))) = 1.
Proof.
  assert (Hnn : counters_nonneg (f_cells (snd Example.machines_gene))).
  { intros smp scnt.
    replace (f_cells (snd Example.machines_gene))
      with (<["S1" := {| ref_supporting := 6; alt_supporting := 4;
                         dup_count := 0; other_supporting := 0 |}]>
              (∅ : gmap string SCount))
      by (vm_compute; reflexivity).
    intros [[_ <-] | [_ Hl]]%lookup_insert_Some; [simpl; lia |].
    now rewrite lookup_empty in Hl. }
  pose proof (counters_match_lines (PF := Ratio_ops) (SO := SnpTally_ops)
                (FO := FeatureTally_ops) Example.conf) as [Hcells Hrun].
  split; [exact Hnn |]. split.
  - apply (proj1 (Hcells _ Hnn) "S1"); vm_compute; reflexivity.
  - destruct (Hrun Example.td0 [Example.sam_of Example.reads6]
                [Example.gene; Example.desert] Example.tally0 Example.feature0)
      as (Ha & _).
    etransitivity; [exact Ha |]. vm_compute. reflexivity.
Defined.

(* ===================================================================== *)
(** * Error routing *)
(* ===================================================================== *)

Section Routing.
Context {F : Type} {PF : PyFloat F} {M FM : Type}
        {SO : SNPMCount.Ops M} {FO : FeatureMCount.Ops FM M}.
Implicit Types (conf : Config F) (mcnt : M) (fm : FM) (w : Worker M FM).

Lemma plp_reads_unqualified conf idx read reads mcnt :
  check_read read conf < 0 ->
  plp_reads idx (read :: reads) mcnt conf = plp_reads idx reads mcnt conf.
Proof. intros Hc. simpl. now rewrite (proj2 (Z.ltb_lt _ _) Hc). Qed.

Lemma plp_reads_fatal conf idx read reads mcnt mcnt' :
  0 <= check_read read conf ->
  plp_push conf idx mcnt read = Val (-1, mcnt') ->
  plp_reads idx (read :: reads) mcnt conf = Val (Return (-5) mcnt').
Proof.
  intros Hc Hp. simpl. rewrite (proj2 (Z.ltb_ge _ _) Hc), Hp. reflexivity.
Qed.

Lemma plp_reads_pushed conf idx read reads mcnt code mcnt' :
  0 <= check_read read conf ->
  plp_push conf idx mcnt read = Val (code, mcnt') ->
  code <> -1 ->
  plp_reads idx (read :: reads) mcnt conf = plp_reads idx reads mcnt' conf.
Proof.
  intros Hc Hp Hne. simpl. rewrite (proj2 (Z.ltb_ge _ _) Hc), Hp.
  destruct (code <? 0); [| reflexivity].
  now rewrite (proj2 (Z.eqb_neq _ _) Hne).
Qed.

Lemma plp_reads_app conf idx pre post mcnt :
  plp_reads idx (pre ++ post) mcnt conf
  = match plp_reads idx pre mcnt conf with
    | Val (Next mcnt') => plp_reads idx post mcnt' conf
    | stop => stop
    end.
Proof.
  revert mcnt. induction pre as [| read pre IH]; intros mcnt; simpl;
    [reflexivity |].
  destruct (check_read read conf <? 0); [apply IH |].
  destruct (plp_push conf idx mcnt read) as [[code mcnt'] | e];
    [| reflexivity].
  destruct (code <? 0); [destruct (code =? -1) |]; auto.
Qed.

Lemma plp_sams_app conf snp pre post : forall idx mcnt,
  plp_sams idx (pre ++ post) snp mcnt conf
  = match plp_sams idx pre snp mcnt conf with
    | Val (Next mcnt') => plp_sams (idx + length pre) post snp mcnt' conf
    | stop => stop
    end.
Proof.
  induction pre as [| sam pre IH]; intros idx mcnt; simpl.
  - now rewrite Nat.add_0_r.
  - rewrite <- Nat.add_succ_comm.
    destruct (sam.sam_fetch sam _ _ _) as [itr |]; [| apply IH].
    destruct (plp_reads idx (sam.it_reads itr) mcnt conf) as [[m | c m] | e];
      auto.
Qed.

Lemma fet1_snps_app conf sam_list pre post : forall mcnt fm,
  fet1_snps (pre ++ post) sam_list mcnt fm conf
  = match fet1_snps pre sam_list mcnt fm conf with
    | Val (Next (mcnt', fm')) => fet1_snps post sam_list mcnt' fm' conf
    | stop => stop
    end.
Proof.
  induction pre as [| snp pre IH]; intros mcnt fm; simpl; [reflexivity |].
  destruct (plp_snp snp sam_list mcnt conf) as [[code mcnt'] | e];
    [| reflexivity].
  destruct (code <? 0); [reflexivity |].
  destruct (0 <? code); [apply IH |].
  destruct (FeatureMCount.push_snp fm mcnt') as [r fm'].
  destruct (r <? 0); [reflexivity | apply IH].
Qed.

Lemma fc_regions_app conf sam_list pre post : forall reg_idx w,
  fc_regions conf sam_list reg_idx (pre ++ post) w
  = match fc_regions conf sam_list reg_idx pre w with
    | Returned w' => fc_regions conf sam_list (reg_idx + length pre) post w'
    | stop => stop
    end.
Proof.
  induction pre as [| reg pre IH]; intros reg_idx w; simpl.
  - now rewrite Nat.add_0_r.
  - rewrite <- Nat.add_succ_comm.
    destruct (fc_region conf sam_list reg_idx reg w); [apply IH | reflexivity].
Qed.

(** The fatal code of [push_read], met at some read of some alignment file,
    ends the pileup of the SNP with code -5. *)
Lemma plp_snp_fatal conf snp sams_pre sam sams_post itr rpre read rpost
    mcnt r0 m0 m1 m2 m3 :
  SNPMCount.add_snp mcnt snp = (r0, m0) ->
  0 <= r0 ->
  plp_sams 0 sams_pre snp m0 conf = Val (Next m1) ->
  sam.sam_fetch sam (snp_chrom snp) (Some (snp_pos snp)) (Some (snp_pos snp))
    = Some itr ->
  sam.it_reads itr = (rpre ++ read :: rpost)%list ->
  plp_reads (length sams_pre) rpre m1 conf = Val (Next m2) ->
  0 <= check_read read conf ->
  plp_push conf (length sams_pre) m2 read = Val (-1, m3) ->
  plp_snp snp (sams_pre ++ sam :: sams_post) mcnt conf = Val (-5, m3).
Proof.
  intros Ha Hr0 Hpre Hfetch Hreads Hrpre Hc Hp.
  unfold plp_snp. rewrite Ha, (proj2 (Z.ltb_ge _ _) Hr0).
  rewrite plp_sams_app, Hpre. cbn [plp_sams Nat.add]. rewrite Hfetch, Hreads.
  rewrite plp_reads_app, Hrpre.
  now rewrite (plp_reads_fatal _ _ _ _ _ _ Hc Hp).
Qed.

(** A negative code of [plp_snp] stops the worker with RuntimeError: the
    region line is written, nothing else, and no later region is
    processed. *)
Lemma fc_features_abort conf sam_list td pre reg post (sm : M) (fm : FM)
    w1 spre snp spost sm1 fm1 code sm2 :
  fc_regions conf sam_list 0 pre (opened td sm fm) = Returned w1 ->
  snp_list reg = (spre ++ snp :: spost)%list ->
  fet1_snps spre sam_list (snp_mcnt w1)
    (snd (FeatureMCount.add_region (mcnt w1) reg)) conf
    = Val (Next (sm1, fm1)) ->
  plp_snp snp sam_list sm1 conf = Val (code, sm2) ->
  code < 0 ->
  fc_features td conf sam_list (pre ++ reg :: post) sm fm
  = Raised (RuntimeError "errcode -9")
      {| thdata := thdata w1; files := write_reg (str_reg reg) (files w1);
         snp_mcnt := sm2; mcnt := fm1 |}.
Proof.
  intros Hpre Hsnps Hspre Hp Hc.
  unfold fc_features. rewrite fc_regions_app, Hpre. cbn [fc_regions].
  assert (Hreg : fc_region conf sam_list (0 + length pre) reg w1
    = Raised (RuntimeError "errcode -9")
        {| thdata := thdata w1; files := write_reg (str_reg reg) (files w1);
           snp_mcnt := sm2; mcnt := fm1 |}).
  { unfold fc_region, fc_fet1. rewrite Hsnps.
    destruct spre as [| s0 spre0] eqn:Es.
    - cbn [app]. simpl in Hspre.
      injection Hspre as <- <-.
      rewrite (fet1_snps_failed _ _ _ _ _ _ _ _ Hp Hc). reflexivity.
    - cbn [app]. change (s0 :: (spre0 ++ snp :: spost)%list)
        with (((s0 :: spre0) ++ snp :: spost)%list).
      rewrite fet1_snps_app, Hspre.
      rewrite (fet1_snps_failed _ _ _ _ _ _ _ _ Hp Hc). reflexivity. }
  now rewrite Hreg.
Qed.

End Routing.

(** C6. In the pileup of a SNP a [push_read] that returns -1 ends
    [plp_snp] at once with the negative code -5, and a negative code of
    [plp_snp] makes [fc_fet1] fail and the worker raise RuntimeError: the
    region stops with its region line as the only thing written, the
    thread data keep the counters of the regions before, and no later
    region is processed.  Any other negative return of [push_read] only
    drops the read: the loop goes on with the next read.  A positive code
    of [plp_snp] (the SNP was filtered) is no error: [fc_fet1] goes on with
    the next SNP. *)
Theorem error_routing {F M FM : Type} {PF : PyFloat F}
    {SO : SNPMCount.Ops M} {FO : FeatureMCount.Ops FM M}
    (conf : Config F) :
  (forall snp sams_pre sam sams_post itr rpre read rpost
          (mcnt : M) r0 m0 m1 m2 m3,
     SNPMCount.add_snp mcnt snp = (r0, m0) ->
     0 <= r0 ->
     plp_sams 0 sams_pre snp m0 conf = Val (Next m1) ->
     sam.sam_fetch sam (snp_chrom snp) (Some (snp_pos snp)) (Some (snp_pos snp))
       = Some itr ->
     sam.it_reads itr = (rpre ++ read :: rpost)%list ->
     plp_reads (length sams_pre) rpre m1 conf = Val (Next m2) ->
     0 <= check_read read conf ->
     plp_push conf (length sams_pre) m2 read = Val (-1, m3) ->
     plp_snp snp (sams_pre ++ sam :: sams_post) mcnt conf = Val (-5, m3))
  /\ (forall sam_list td pre reg post (sm : M) (fm : FM)
             w1 spre snp spost sm1 fm1 code sm2,
        fc_regions conf sam_list 0 pre (opened td sm fm) = Returned w1 ->
        snp_list reg = (spre ++ snp :: spost)%list ->
        fet1_snps spre sam_list (snp_mcnt w1)
          (snd (FeatureMCount.add_region (mcnt w1) reg)) conf
          = Val (Next (sm1, fm1)) ->
        plp_snp snp sam_list sm1 conf = Val (code, sm2) ->
        code < 0 ->
        fc_features td conf sam_list (pre ++ reg :: post) sm fm
        = Raised (RuntimeError "errcode -9")
            {| thdata := thdata w1;
               files := write_reg (str_reg reg) (files w1);
               snp_mcnt := sm2; mcnt := fm1 |})
  /\ (forall idx read reads (mcnt : M) code mcnt',
        0 <= check_read read conf ->
        plp_push conf idx mcnt read = Val (code, mcnt') ->
        code < 0 -> code <> -1 ->
        plp_reads idx (read :: reads) mcnt conf
        = plp_reads idx reads mcnt' conf)
  /\ (forall snp snps sam_list (mcnt : M) (fm : FM) code mcnt',
        plp_snp snp sam_list mcnt conf = Val (code, mcnt') ->
        0 < code ->
        fet1_snps (snp :: snps) sam_list mcnt fm conf
        = fet1_snps snps sam_list mcnt' fm conf).
Proof.
  split; [intros; eapply plp_snp_fatal; eauto |].
  split; [intros; eapply fc_features_abort; eauto |].
  split.
  - intros. eapply plp_reads_pushed; eauto.
  - intros. eapply fet1_snps_filtered; eauto.
Qed.

(** A worker with a corrupted tally: the first read pushed at the SNP of
    the second region is answered with -1, [plp_snp] returns -5 and the
    worker stops in that region; with the sound tally the SNP of example 7
    is filtered and the region ends normally. *)
Lemma error_routing_witness :
  plp_snp (PF := Ratio_ops) (SO := corrupt_SnpTally_ops) Example.snp
    [Example.sam_of Example.reads6] Example.tally0 Example.conf
  = Val (-5, tally_reset Example.tally0)
  /\ fc_features (PF := Ratio_ops) (SO := corrupt_SnpTally_ops)
       (FO := FeatureTally_ops) Example.td0 Example.conf
       [Example.sam_of Example.reads6]
       [Example.desert; Example.gene; Example.desert]
       Example.tally0 Example.feature0
     = Raised (RuntimeError "errcode -9")
         {| thdata := {| ret := -1; nr_reg := 0; nr_ad := 0; nr_dp := 0;
                         nr_oth := 0 |};
            files := {| fp_reg := [str_reg Example.desert; str_reg Example.gene];
                        fp_ad := []; fp_dp := []; fp_oth := [] |};
            snp_mcnt := tally_reset Example.tally0;
            mcnt := snd (feature_add_region Example.feature0 Example.gene) |}
  /\ fet1_snps (PF := Ratio_ops) (SO := SnpTally_ops) (FO := FeatureTally_ops)
       [Example.snp] [Example.sam_of Example.reads7] Example.tally0
       Example.feature0 Example.conf
     = Val (Next (Example.finalized Example.reads7, Example.feature0)).
Proof.
  pose proof (error_routing (PF := Ratio_ops) (SO := corrupt_SnpTally_ops)
                (FO := FeatureTally_ops) Example.conf)
    as (Hfatal & Habort & _ & _).
  pose proof (error_routing (PF := Ratio_ops) (SO := SnpTally_ops)
                (FO := FeatureTally_ops) Example.conf)
    as (_ & _ & _ & Hskip).
  assert (H5 : plp_snp (PF := Ratio_ops) (SO := corrupt_SnpTally_ops)
                 Example.snp [Example.sam_of Example.reads6] Example.tally0
                 Example.conf
               = Val (-5, tally_reset Example.tally0)).
  { refine (Hfatal Example.snp [] (Example.sam_of Example.reads6) []
              {| sam.it_bool := true; sam.it_reads := Example.reads6 |}
              [] (Example.read_of "A")
              (replicate 5 (Example.read_of "A")
               ++ replicate 4 (Example.read_of "G"))%list
              Example.tally0 0 (tally_reset Example.tally0)
              (tally_reset Example.tally0) (tally_reset Example.tally0)
              (tally_reset Example.tally0) _ _ _ _ _ _ _ _);
      try reflexivity; vm_compute; discriminate. }
  split; [exact H5 |]. split.
  - refine (Habort [Example.sam_of Example.reads6] Example.td0
              [Example.desert] Example.gene [Example.desert]
              Example.tally0 Example.feature0
              {| thdata := {| ret := -1; nr_reg := 0; nr_ad := 0; nr_dp := 0;
                              nr_oth := 0 |};
                 files := {| fp_reg := [str_reg Example.desert]; fp_ad := [];
                             fp_dp := []; fp_oth := [] |};
                 snp_mcnt := Example.tally0;
                 mcnt := snd (feature_add_region Example.feature0
                                Example.desert) |}
              [] Example.snp [] Example.tally0
              (snd (feature_add_region Example.feature0 Example.gene))
              (-5) (tally_reset Example.tally0) _ _ _ H5 _);
      reflexivity.
  - refine (Hskip Example.snp [] [Example.sam_of Example.reads7]
              Example.tally0 Example.feature0 5
              (Example.finalized Example.reads7) _ _);
      [vm_compute; reflexivity | reflexivity].
Defined.

(* ===================================================================== *)
(** * Query bases and qualities *)
(* ===================================================================== *)

Section Query.
Context {A : Type}.
Implicit Types (seq : list A) (result : list (option A)).

Lemma py_getitem_in seq i :
  0 <= i < Z.of_nat (length seq) ->
  exists x, seq !! Z.to_nat i = Some x /\ py_getitem seq i = Val x.
Proof.
  intros Hi. unfold py_getitem.
  rewrite (proj2 (Z.ltb_ge i 0)) by lia.
  rewrite (proj2 (Z.ltb_ge i 0)) by lia.
  rewrite (proj2 (Z.leb_gt _ _)) by lia. cbn [orb].
  destruct (seq !! Z.to_nat i) as [x |] eqn:Hl; [eauto |].
  apply lookup_ge_None in Hl. lia.
Qed.

Lemma py_getitem_out seq i :
  Z.of_nat (length seq) <= i -> py_getitem seq i = Exc IndexError.
Proof.
  intros Hi. unfold py_getitem.
  rewrite (proj2 (Z.ltb_ge i 0)) by lia.
  rewrite (proj2 (Z.leb_le _ _) Hi). now rewrite orb_true_r.
Qed.

(** The inner loop appends the [n] elements from [pos] on, or raises if
    they are not all there. *)
Lemma append_range_some seq : forall n pos result,
  0 <= pos ->
  append_range (Some seq) pos n result
  = if decide (n = O \/ pos + Z.of_nat n <= Z.of_nat (length seq))
    then Val (result ++ (Some <$> take n (drop (Z.to_nat pos) seq)))%list
    else Exc IndexError.
Proof.
  induction n as [| n IH]; intros pos result Hpos.
  - rewrite decide_True by auto. cbn. now rewrite app_nil_r.
  - cbn [append_range].
    destruct (Z_lt_le_dec pos (Z.of_nat (length seq))) as [Hlt | Hge].
    + destruct (py_getitem_in seq pos) as (x & Hx & ->); [lia |].
      rewrite IH by lia.
      replace (Z.to_nat (pos + 1)) with (S (Z.to_nat pos)) by lia.
      rewrite (drop_S _ _ _ Hx). cbn [take fmap list_fmap].
      destruct (decide (n = O \/ _)) as [Hn | Hn];
        destruct (decide (S n = O \/ _)) as [Hs | Hs]; try lia;
        [now rewrite <- app_assoc | reflexivity].
    + rewrite py_getitem_out by lia. rewrite decide_False by lia. reflexivity.
Qed.

(** What it appends are elements, never [None], and do not depend on the
    accumulator. *)
Lemma append_range_items (s : option (list A)) : forall n pos result,
  append_range s pos n result
  = match range_items s pos n with
    | Val l => Val (result ++ (Some <$> l))%list
    | Exc e => Exc e
    end.
Proof.
  induction n as [| n IH]; intros pos result.
  - cbn. now rewrite app_nil_r.
  - cbn [append_range range_items]. destruct s as [seq |]; [| reflexivity].
    destruct (py_getitem seq pos) as [x | e]; [| reflexivity].
    rewrite IH. destruct (range_items (Some seq) (pos + 1) n); [| reflexivity].
    cbn. now rewrite <- app_assoc.
Qed.

End Query.

Lemma omap_id_fmap_Some {A} (l : list A) : omap id (Some <$> l) = l.
Proof. induction l as [| x l IH]; [reflexivity |]. cbn. now rewrite IH. Qed.

Lemma omap_id_replicate_None {A} (n : nat) :
  omap id (replicate n (@None A)) = [].
Proof. induction n; auto. Qed.

Lemma is_clip_not_match op : is_clip op = true -> is_match op = false.
Proof.
  unfold is_clip, is_match, BAM_CSOFT_CLIP, BAM_CINS, BAM_CMATCH, BAM_CEQUAL,
    BAM_CDIFF.
  destruct (Z.eqb_spec op 4), (Z.eqb_spec op 1), (Z.eqb_spec op 0),
    (Z.eqb_spec op 7), (Z.eqb_spec op 8); simpl; intros; lia || congruence.
Qed.

(** The three branches of the loop body. *)
Lemma query_loop_clip {A} (s : option (list A)) fl op l cigar pos result :
  is_clip op = true ->
  query_loop s fl ((op, l) :: cigar) pos result
  = query_loop s fl cigar (pos + l)
      (if fl then result ++ replicate (Z.to_nat l) None else result)%list.
Proof. intros Hc. cbn [query_loop]. fold (is_clip op). now rewrite Hc. Qed.

Lemma query_loop_match {A} (s : option (list A)) fl op l cigar pos result :
  is_match op = true ->
  query_loop s fl ((op, l) :: cigar) pos result
  = match append_range s pos (Z.to_nat l) result with
    | Exc e => Exc e
    | Val result => query_loop s fl cigar (pos + l) result
    end.
Proof.
  intros Hm. cbn [query_loop]. fold (is_clip op). fold (is_match op).
  rewrite Hm. destruct (is_clip op) eqn:Hc; [| reflexivity].
  apply is_clip_not_match in Hc. congruence.
Qed.

Lemma query_loop_other {A} (s : option (list A)) fl op l cigar pos result :
  is_clip op = false -> is_match op = false ->
  query_loop s fl ((op, l) :: cigar) pos result
  = query_loop s fl cigar pos result.
Proof.
  intros Hc Hm. cbn [query_loop]. fold (is_clip op). fold (is_match op).
  now rewrite Hc, Hm.
Qed.

(** Each function is its loop run from position 0 on the empty list, also
    when the CIGAR is empty. *)
Lemma get_query_bases_loop read fl cigar :
  cigartuples read = Some cigar ->
  get_query_bases read fl = query_loop (query_sequence read) fl cigar 0 [].
Proof. unfold get_query_bases. intros ->. now destruct cigar. Qed.

Lemma get_query_qualities_loop read fl cigar :
  cigartuples read = Some cigar ->
  get_query_qualities read fl = query_loop (query_qualities read) fl cigar 0 [].
Proof. unfold get_query_qualities. intros ->. now destruct cigar. Qed.

Lemma query_loop_strip {A} (s : option (list A)) cigar : forall pos rt,
  query_loop s false cigar pos (Some <$> omap id rt)
  = strip (query_loop s true cigar pos rt).
Proof.
  induction cigar as [| [op l] cigar IH]; intros pos rt; [reflexivity |].
  destruct (is_clip op) eqn:Hc; [| destruct (is_match op) eqn:Hm].
  - rewrite !query_loop_clip by assumption. rewrite <- IH.
    now rewrite omap_app, omap_id_replicate_None, app_nil_r.
  - rewrite !query_loop_match, !append_range_items by assumption.
    destruct (range_items s pos (Z.to_nat l)) as [items | e]; [| reflexivity].
    rewrite <- IH. now rewrite omap_app, omap_id_fmap_Some, fmap_app.
  - rewrite !query_loop_other by assumption. apply IH.
Qed.

Lemma py_getitem_shape {A B} (s1 : list A) (s2 : list B) i :
  length s1 = length s2 ->
  (exists x y, py_getitem s1 i = Val x /\ py_getitem s2 i = Val y)
  \/ (exists e, py_getitem s1 i = Exc e /\ py_getitem s2 i = Exc e).
Proof.
  intros Hlen. unfold py_getitem. rewrite <- Hlen.
  set (j := if i <? 0 then i + Z.of_nat (length s1) else i).
  destruct ((j <? 0) || (Z.of_nat (length s1) <=? j)) eqn:Hj; [right; eauto |].
  apply orb_false_iff in Hj as [Hj0 Hjn].
  apply Z.ltb_ge in Hj0. apply Z.leb_gt in Hjn.
  destruct (lookup_lt_is_Some_2 s1 (Z.to_nat j)) as [x ->]; [lia |].
  destruct (lookup_lt_is_Some_2 s2 (Z.to_nat j)) as [y ->]; [lia |].
  left. eauto.
Qed.

Lemma range_items_shape {A B} (s1 : option (list A)) (s2 : option (list B)) :
  length <$> s1 = length <$> s2 ->
  forall n pos,
    match range_items s1 pos n, range_items s2 pos n with
    | Val l1, Val l2 => length l1 = length l2
    | Exc e1, Exc e2 => e1 = e2
    | _, _ => False
    end.
Proof.
  intros Hlen. induction n as [| n IH]; intros pos; [reflexivity |].
  cbn [range_items].
  destruct s1 as [seq1 |], s2 as [seq2 |]; try discriminate; [| reflexivity].
  injection Hlen as Hlen.
  destruct (py_getitem_shape seq1 seq2 pos Hlen)
    as [(x & y & -> & ->) | (e & -> & ->)]; [| reflexivity].
  specialize (IH (pos + 1)).
  destruct (range_items (Some seq1) (pos + 1) n),
    (range_items (Some seq2) (pos + 1) n); cbn; auto.
Qed.

Lemma is_entry_fmap_Some {A} (l : list A) :
  is_entry <$> (Some <$> l) = replicate (length l) true.
Proof. induction l as [| x l IH]; [reflexivity |]. cbn. now rewrite IH. Qed.

Lemma query_loop_shape {A B} (s1 : option (list A)) (s2 : option (list B))
    fl cigar :
  length <$> s1 = length <$> s2 ->
  forall pos r1 r2,
    is_entry <$> r1 = is_entry <$> r2 ->
    shape (query_loop s1 fl cigar pos r1) = shape (query_loop s2 fl cigar pos r2).
Proof.
  intros Hlen. induction cigar as [| [op l] cigar IH]; intros pos r1 r2 Hr.
  - cbn. now rewrite Hr.
  - destruct (is_clip op) eqn:Hc; [| destruct (is_match op) eqn:Hm].
    + rewrite !query_loop_clip by assumption. apply IH.
      destruct fl; [| assumption].
      now rewrite !fmap_app, !fmap_replicate, Hr.
    + rewrite !query_loop_match, !append_range_items by assumption.
      pose proof (range_items_shape s1 s2 Hlen (Z.to_nat l) pos) as Hs.
      destruct (range_items s1 pos (Z.to_nat l)) as [l1 | e1],
        (range_items s2 pos (Z.to_nat l)) as [l2 | e2]; try contradiction.
      * apply IH. now rewrite !fmap_app, !is_entry_fmap_Some, Hr, Hs.
      * cbn. now rewrite Hs.
    + rewrite !query_loop_other by assumption. now apply IH.
Qed.

Lemma overruns_nil pos n : ~ overruns [] pos n.
Proof. intros (pre & op & l & post & E & _). now destruct pre. Qed.

Lemma overruns_cons op l cigar pos n :
  overruns ((op, l) :: cigar) pos n
  <-> (is_match op = true /\ 0 < l /\ n < pos + l)
      \/ overruns cigar
           (pos + (if is_clip op || is_match op then l else 0)) n.
Proof.
  split.
  - intros (pre & op' & l' & post & E & Hm & Hl & Hn).
    destruct pre as [| [op0 l0] pre]; cbn in E; injection E as E1 E2 E3.
    + subst. left. cbn in Hn. repeat split; auto; lia.
    + subst. right. exists pre, op', l', post. cbn [query_len] in Hn.
      repeat split; auto; lia.
  - intros [(Hm & Hl & Hn) | (pre & op' & l' & post & -> & Hm & Hl & Hn)].
    + exists [], op, l, cigar. cbn. repeat split; auto; lia.
    + exists ((op, l) :: pre), op', l', post. cbn [query_len app].
      repeat split; auto; lia.
Qed.

Lemma lengths_nonneg_cons op l cigar :
  lengths_nonneg ((op, l) :: cigar) -> 0 <= l /\ lengths_nonneg cigar.
Proof. intros Hn. apply Forall_cons in Hn as [Hl Hn]. auto. Qed.

(** With unsigned lengths the loop either returns, no aligned block
    reaching beyond the sequence, or raises IndexError at the first block
    that does. *)
Lemma query_loop_cases {A} (seq : list A) fl cigar :
  lengths_nonneg cigar ->
  forall pos result, 0 <= pos ->
    (exists r,
       query_loop (Some seq) fl cigar pos result = Val r
       /\ ~ overruns cigar pos (Z.of_nat (length seq))
       /\ Z.of_nat (length r)
          = Z.of_nat (length result)
            + (if fl then query_len cigar else aligned_len cigar))
    \/ (query_loop (Some seq) fl cigar pos result = Exc IndexError
        /\ overruns cigar pos (Z.of_nat (length seq))).
Proof.
  induction cigar as [| [op l] cigar IH]; intros Hnn pos result Hpos.
  - left. exists result. cbn. split; [reflexivity |].
    split; [apply overruns_nil | destruct fl; lia].
  - apply lengths_nonneg_cons in Hnn as [Hl Hnn]. specialize (IH Hnn).
    rewrite overruns_cons. cbn [query_len aligned_len].
    destruct (is_clip op) eqn:Hc; [| destruct (is_match op) eqn:Hm].
    + rewrite query_loop_clip by assumption.
      pose proof (is_clip_not_match _ Hc) as Hm. rewrite Hm. cbn [orb].
      destruct (IH (pos + l)
                  (if fl then result ++ replicate (Z.to_nat l) None
                   else result)%list) as [(r & Hr & Ho & Hlen) | [He Ho]];
        [lia | left | right].
      * exists r. split; [assumption |]. split.
        -- rewrite overruns_cons, Hc, Hm. cbn [orb].
           intros [[? _] | ?]; [discriminate | auto].
        -- rewrite Hlen. destruct fl; [| lia].
           rewrite length_app, length_replicate. lia.
      * auto.
    + rewrite query_loop_match, append_range_some by assumption. cbn [orb].
      destruct (decide (Z.to_nat l = O \/ _)) as [Hfit | Hout].
      * destruct (IH (pos + l)
                    (result ++ (Some <$> take (Z.to_nat l)
                                           (drop (Z.to_nat pos) seq)))%list)
          as [(r & Hr & Ho & Hlen) | [He Ho]]; [lia | left | right].
        -- exists r. split; [assumption |]. split.
           ++ rewrite overruns_cons, Hc, Hm. cbn [orb].
              intros [(_ & ? & ?) | ?]; [lia | auto].
           ++ rewrite Hlen, length_app, length_fmap, length_take, length_drop.
              destruct fl; lia.
        -- auto.
      * right. split; [reflexivity |]. left. split; [reflexivity |]. lia.
    + rewrite query_loop_other by assumption. cbn [orb].
      rewrite Z.add_0_r.
      destruct (IH pos result Hpos) as [(r & Hr & Ho & Hlen) | [He Ho]];
        [left | right].
      * exists r. split; [assumption |]. split.
        -- rewrite overruns_cons, Hc, Hm. cbn [orb]. rewrite Z.add_0_r.
           intros [[? _] | ?]; [discriminate | auto].
        -- destruct fl; lia.
      * auto.
Qed.

(** In the full-length form every element sits at its own query
    position. *)
Lemma query_loop_positions {A} (seq : list A) cigar :
  lengths_nonneg cigar ->
  forall pos result r,
    0 <= pos ->
    length result = Z.to_nat pos ->
    (forall i x, result !! i = Some (Some x) -> seq !! i = Some x) ->
    query_loop (Some seq) true cigar pos result = Val r ->
    forall i x, r !! i = Some (Some x) -> seq !! i = Some x.
Proof.
  induction cigar as [| [op l] cigar IH]; intros Hnn pos result r Hpos Hlen Hin.
  - cbn. intros [= <-]. exact Hin.
  - apply lengths_nonneg_cons in Hnn as [Hl Hnn]. specialize (IH Hnn).
    destruct (is_clip op) eqn:Hc; [| destruct (is_match op) eqn:Hm].
    + rewrite query_loop_clip by assumption. apply IH; [lia | |].
      * rewrite length_app, length_replicate. lia.
      * intros i x [Hi | [_ Hi]]%lookup_app_Some; [now apply Hin |].
        apply lookup_replicate in Hi as [? _]. discriminate.
    + rewrite query_loop_match, append_range_some by assumption.
      destruct (decide (Z.to_nat l = O \/ _)) as [Hfit | Hout];
        [| discriminate].
      apply IH; [lia | |].
      * rewrite length_app, length_fmap, length_take, length_drop. lia.
      * intros i x [Hi | [Hge Hi]]%lookup_app_Some; [now apply Hin |].
        rewrite list_lookup_fmap in Hi.
        destruct (take _ _ !! _) as [y |] eqn:Hy; [| discriminate].
        injection Hi as ->.
        apply lookup_take_Some in Hy as [Hy _]. rewrite lookup_drop in Hy.
        rewrite <- Hy. f_equal. lia.
    + rewrite query_loop_other by assumption. now apply IH.
Qed.

Lemma query_len_nonneg cigar : lengths_nonneg cigar -> 0 <= query_len cigar.
Proof.
  induction cigar as [| [op l] cigar IH]; intros Hnn; cbn [query_len]; [lia |].
  apply lengths_nonneg_cons in Hnn as [Hl Hnn]. specialize (IH Hnn).
  destruct (is_clip op || is_match op); lia.
Qed.

(** A CIGAR that accounts for no more bases than there are overruns
    nothing. *)
Lemma fits_not_overruns cigar : forall pos n,
  lengths_nonneg cigar -> pos + query_len cigar <= n -> ~ overruns cigar pos n.
Proof.
  induction cigar as [| [op l] cigar IH]; intros pos n Hnn Hfit.
  - apply overruns_nil.
  - apply lengths_nonneg_cons in Hnn as [Hl Hnn].
    pose proof (query_len_nonneg _ Hnn) as Hq. cbn [query_len] in Hfit.
    rewrite overruns_cons. intros [(Hm & _ & Hn) | Ho].
    + rewrite Hm, orb_true_r in Hfit. lia.
    + revert Ho. apply IH; [assumption | lia].
Qed.

(** X1. For every read, the default form of [get_query_bases] and of
    [get_query_qualities] is the full-length form with its [None] entries
    removed: both forms raise the same exception or both return, and the
    soft-clipped and inserted positions are the only difference. *)
Theorem query_short_form (read : QuerySegment) :
  get_query_bases read false = strip (get_query_bases read true)
  /\ get_query_qualities read false = strip (get_query_qualities read true).
Proof.
  unfold get_query_bases, get_query_qualities.
  destruct (cigartuples read) as [[| ol cigar] |]; auto.
  split; apply (query_loop_strip _ (ol :: cigar) 0 []).
Qed.

(** X2. When the sequence and the qualities of a read have the same
    length (or are both absent), [get_query_bases] and
    [get_query_qualities] agree in shape: they raise the same exception, or
    return lists of the same length with [None] at the same indices, so
    that base and quality of the same index belong together. *)
Theorem query_bases_qualities_aligned (read : QuerySegment) (fl : bool) :
  length <$> query_sequence read = length <$> query_qualities read ->
  shape (get_query_bases read fl) = shape (get_query_qualities read fl).
Proof.
  intros Hlen. unfold get_query_bases, get_query_qualities.
  destruct (cigartuples read) as [[| ol cigar] |]; auto.
  now apply query_loop_shape.
Qed.

Lemma query_bases_qualities_aligned_witness :
  shape (get_query_bases Example.segment true)
  = Val [false; false; true; true; true; false; true; true; false]
  /\ shape (get_query_qualities Example.segment true)
     = Val [false; false; true; true; true; false; true; true; false].
Proof.
  rewrite <- (query_bases_qualities_aligned Example.segment true eq_refl).
  split; reflexivity.
Defined.

(** X3. With unsigned CIGAR lengths, a full-length result of
    [get_query_bases] has as many entries as the CIGAR accounts for query
    bases (the length of the read, for a CIGAR that matches its sequence),
    and each entry that is not [None] is the base of the sequence at that
    same index; likewise for [get_query_qualities]. *)
Theorem query_full_length_positions (read : QuerySegment)
    (cigar : list (Z * Z)) :
  cigartuples read = Some cigar ->
  lengths_nonneg cigar ->
  (forall seq r,
     query_sequence read = Some seq ->
     get_query_bases read true = Val r ->
     Z.of_nat (length r) = query_len cigar
     /\ forall i x, r !! i = Some (Some x) -> seq !! i = Some x)
  /\ (forall quals r,
        query_qualities read = Some quals ->
        get_query_qualities read true = Val r ->
        Z.of_nat (length r) = query_len cigar
        /\ forall i x, r !! i = Some (Some x) -> quals !! i = Some x).
Proof.
  intros Hc Hnn.
  rewrite (get_query_bases_loop _ _ _ Hc), (get_query_qualities_loop _ _ _ Hc).
  split; intros seq r -> Hr; (split;
    [ destruct (query_loop_cases seq true cigar Hnn 0 [])
        as [(r' & Hr' & _ & Hlen) | [He _]]; [lia | | congruence];
      rewrite Hr in Hr'; injection Hr' as <-; exact Hlen
    | apply (query_loop_positions seq cigar Hnn 0 [] r); auto; [lia |];
      intros i x Hi; now rewrite lookup_nil in Hi ]).
Qed.

Lemma query_full_length_positions_witness :
  lengths_nonneg [(5, 4); (4, 2); (0, 3); (1, 1); (2, 7); (0, 2); (4, 1)]
  /\ (exists r, get_query_bases Example.segment true = Val r
        /\ length r = 9%nat
        /\ forall i x, r !! i = Some (Some x) ->
             list_ascii_of_string "ttACGgTAc" !! i = Some x).
Proof.
  assert (Hnn : lengths_nonneg
            [(5, 4); (4, 2); (0, 3); (1, 1); (2, 7); (0, 2); (4, 1)]).
  { repeat constructor; simpl; lia. }
  split; [exact Hnn |].
  destruct (get_query_bases Example.segment true) as [r | e] eqn:Hr;
    [| vm_compute in Hr; discriminate].
  exists r. split; [reflexivity |].
  destruct (proj1 (query_full_length_positions Example.segment _ eq_refl Hnn)
              _ r eq_refl Hr) as [Hlen Hpos].
  split; [| exact Hpos]. cbn in Hlen. lia.
Defined.

(** X4. With unsigned CIGAR lengths and a sequence present,
    [get_query_bases] returns exactly when no aligned block of the CIGAR
    reaches beyond the end of the sequence, with as many entries as the
    CIGAR has aligned bases (in the full-length form: query bases); when a
    block does reach beyond, it raises IndexError. *)
Theorem query_bounds (read : QuerySegment) (cigar : list (Z * Z))
    (seq : list ascii) (fl : bool) :
  cigartuples read = Some cigar ->
  lengths_nonneg cigar ->
  query_sequence read = Some seq ->
  (~ overruns cigar 0 (Z.of_nat (length seq)) ->
     exists r, get_query_bases read fl = Val r
       /\ Z.of_nat (length r)
          = if fl then query_len cigar else aligned_len cigar)
  /\ (overruns cigar 0 (Z.of_nat (length seq)) ->
      get_query_bases read fl = Exc IndexError)
  /\ (query_len cigar <= Z.of_nat (length seq) ->
      exists r, get_query_bases read fl = Val r).
Proof.
  intros Hc Hnn Hs. rewrite (get_query_bases_loop _ _ _ Hc), Hs.
  destruct (query_loop_cases seq fl cigar Hnn 0 [])
    as [(r & Hr & Ho & Hlen) | [He Ho]]; [lia | |].
  - split; [intros _; exists r; split; [assumption | exact Hlen] |].
    split; [intros Hov; contradiction | intros _; eauto].
  - split; [intros Hn; contradiction |]. split; [auto |].
    intros Hfit. exfalso. revert Ho. apply fits_not_overruns; [assumption | lia].
Qed.

Lemma query_bounds_witness :
  get_query_bases Example.overlong false = Exc IndexError
  /\ exists r, get_query_bases Example.segment false = Val r
       /\ length r = 5%nat.
Proof.
  assert (Hnn1 : lengths_nonneg [(4, 2); (0, 8)])
    by (repeat constructor; simpl; lia).
  assert (Hnn2 : lengths_nonneg
            [(5, 4); (4, 2); (0, 3); (1, 1); (2, 7); (0, 2); (4, 1)])
    by (repeat constructor; simpl; lia).
  split.
  - apply (proj1 (proj2 (query_bounds Example.overlong _ _ false
                           eq_refl Hnn1 eq_refl))).
    exists [(4, 2)], 0, 8, []. repeat split; cbn; lia.
  - destruct (proj1 (query_bounds Example.segment _ _ false
                       eq_refl Hnn2 eq_refl)) as (r & Hr & Hlen).
    + apply fits_not_overruns; [exact Hnn2 | cbn; lia].
    + exists r. split; [exact Hr |]. cbn in Hlen. lia.
Defined.

(* ===================================================================== *)
(** * Return codes and exceptions *)
(* ===================================================================== *)

Section Codes.
Context {F : Type} {PF : PyFloat F} {M FM : Type}
        {SO : SNPMCount.Ops M} {FO : FeatureMCount.Ops FM M}.
Implicit Types (conf : Config F) (mcnt : M) (fm : FM) (w : Worker M FM).

Lemma plp_push_exc conf idx mcnt read e :
  plp_push conf idx mcnt read = Exc e -> e = IndexError.
Proof.
  unfold plp_push. destruct (use_barcodes conf); [discriminate |].
  destruct (samples conf !! idx); [discriminate | congruence].
Qed.

Lemma plp_reads_end conf idx reads : forall mcnt,
  match plp_reads idx reads mcnt conf with
  | Val (Next _) => True
  | Val (Return code _) => code = -5
  | Exc e => e = IndexError
  end.
Proof.
  induction reads as [| read reads IH]; intros mcnt; simpl; [exact I |].
  destruct (check_read read conf <? 0); [apply IH |].
  destruct (plp_push conf idx mcnt read) as [[code mcnt'] | e] eqn:Hp.
  - destruct (code <? 0); [destruct (code =? -1) |];
      [reflexivity | apply IH | apply IH].
  - now apply plp_push_exc in Hp.
Qed.

Lemma plp_sams_end conf snp sam_list : forall idx mcnt,
  match plp_sams idx sam_list snp mcnt conf with
  | Val (Next _) => True
  | Val (Return code _) => code = -5
  | Exc e => e = IndexError
  end.
Proof.
  induction sam_list as [| sam sam_list IH]; intros idx mcnt; simpl;
    [exact I |].
  destruct (sam.sam_fetch sam _ _ _) as [itr |]; [| apply IH].
  pose proof (plp_reads_end conf idx (sam.it_reads itr) mcnt) as Hr.
  destruct (plp_reads idx (sam.it_reads itr) mcnt conf) as [[m | c m] | e];
    [apply IH | exact Hr | exact Hr].
Qed.

Lemma tcount_of_exc mcnt base e :
  tcount_of mcnt base = Exc e -> lookup_error e.
Proof.
  unfold tcount_of, lookup_error.
  destruct (SNPMCount.base_idx mcnt !! base) as [i |]; [| intros [= <-]; eauto].
  destruct (SNPMCount.tcount mcnt !! i); [discriminate | intros [= <-]; auto].
Qed.

Lemma plp_snp_end conf snp sam_list mcnt :
  match plp_snp snp sam_list mcnt conf with
  | Val (code, _) =>
      code = -3 \/ code = -5 \/ code = -7 \/ code = 0 \/ code = 3 \/ code = 5
  | Exc e => lookup_error e
  end.
Proof.
  unfold plp_snp. destruct (SNPMCount.add_snp mcnt snp) as [r m0].
  destruct (r <? 0); [auto |].
  pose proof (plp_sams_end conf snp sam_list 0 m0) as Hs.
  destruct (plp_sams 0 sam_list snp m0 conf) as [[m1 | c m1] | e].
  - destruct (SNPMCount.stat m1) as [r1 m2]. destruct (r1 <? 0); [auto 6 |].
    destruct (plp_snp_gate snp m2 conf) as [[code m3] | e] eqn:Hg.
    + apply plp_snp_gate_inv in Hg as [_ [-> | [-> | ->]]]; auto 8.
    + unfold plp_snp_gate in Hg. destruct (_ <? _); [discriminate |].
      destruct (tcount_of m2 (snp_ref snp)) eqn:Hr;
        [| injection Hg as <-; eapply tcount_of_exc; eauto].
      destruct (tcount_of m2 (snp_alt snp)) eqn:Ha;
        [| injection Hg as <-; eapply tcount_of_exc; eauto].
      destruct (int_lt _ _); discriminate.
  - subst. auto.
  - subst. left. reflexivity.
Qed.

Lemma fet1_snps_end conf sam_list snps : forall mcnt fm,
  match fet1_snps snps sam_list mcnt fm conf with
  | Val (Next _) => True
  | Val (Return code _) => code = -3 \/ code = -5
  | Exc e => lookup_error e
  end.
Proof.
  induction snps as [| snp snps IH]; intros mcnt fm; simpl; [exact I |].
  pose proof (plp_snp_end conf snp sam_list mcnt) as Hp.
  destruct (plp_snp snp sam_list mcnt conf) as [[code m1] | e]; [| exact Hp].
  destruct (code <? 0); [auto |]. destruct (0 <? code); [apply IH |].
  destruct (FeatureMCount.push_snp fm m1) as [r fm1].
  destruct (r <? 0); [auto | apply IH].
Qed.

Lemma fc_fet1_end conf reg sam_list mcnt fm :
  match fc_fet1 reg sam_list mcnt fm conf with
  | Val (code, cnt, (_, fm')) =>
      (code = 0 /\ cnt = Some (fet1_counts conf (FeatureMCount.cell_cnt fm')))
      \/ ((code = -3 \/ code = -5 \/ code = -7) /\ cnt = None)
  | Exc e => lookup_error e
  end.
Proof.
  unfold fc_fet1.
  pose proof (fet1_snps_end conf sam_list (snp_list reg) mcnt fm) as Hs.
  destruct (fet1_snps (snp_list reg) sam_list mcnt fm conf)
    as [[[m1 fm1] | c [m1 fm1]] | e]; [| | exact Hs].
  - destruct (FeatureMCount.stat fm1) as [r fm2].
    destruct (r <? 0); [right | left]; auto.
  - right. split; [| reflexivity]. destruct Hs; auto.
Qed.

Lemma fc_region_status conf sam_list reg_idx reg w :
  ret (thdata (final (fc_region conf sam_list reg_idx reg w))) = ret (thdata w)
  /\ nr_reg (thdata (final (fc_region conf sam_list reg_idx reg w)))
     = nr_reg (thdata w).
Proof.
  destruct (fc_region_end conf sam_list reg_idx reg w); auto.
Qed.

Lemma fc_regions_status conf sam_list regs : forall reg_idx w,
  ret (thdata (final (fc_regions conf sam_list reg_idx regs w)))
    = ret (thdata w)
  /\ nr_reg (thdata (final (fc_regions conf sam_list reg_idx regs w)))
     = nr_reg (thdata w).
Proof.
  induction regs as [| reg regs IH]; intros reg_idx w; simpl; [auto |].
  pose proof (fc_region_status conf sam_list reg_idx reg w) as Hreg.
  destruct (fc_region conf sam_list reg_idx reg w) as [w1 | e1 w1];
    cbn [final] in Hreg; [| exact Hreg].
  destruct (IH (S reg_idx) w1) as [-> ->]. exact Hreg.
Qed.

Lemma fc_region_in_step conf sam_list reg_idx reg w :
  in_step w -> in_step (final (fc_region conf sam_list reg_idx reg w)).
Proof.
  unfold in_step. intros (H1 & H2 & H3).
  destruct (fc_region_end conf sam_list reg_idx reg w);
    cbn [final files write_reg fp_ad fp_dp fp_oth fp_reg];
    try destruct (existsb _ _);
    cbn [write_counts write_reg fp_ad fp_dp fp_oth fp_reg];
    rewrite ?length_app; cbn [length]; lia.
Qed.

Lemma fc_regions_in_step conf sam_list regs : forall reg_idx w,
  in_step w -> in_step (final (fc_regions conf sam_list reg_idx regs w)).
Proof.
  induction regs as [| reg regs IH]; intros reg_idx w Hw; simpl; [exact Hw |].
  pose proof (fc_region_in_step conf sam_list reg_idx reg w Hw) as Hreg.
  destruct (fc_region conf sam_list reg_idx reg w) as [w1 | e1 w1];
    cbn [final] in Hreg; [now apply IH | exact Hreg].
Qed.

End Codes.

(** X5. [plp_snp] returns one of the codes -3, -5, -7 (errors), 0
    (accepted), 3 or 5 (filtered), and -3 exactly when [add_snp] failed; the
    only exceptions that leave it are those of a failed subscript
    (IndexError when an alignment file has no sample, KeyError or IndexError
    when a base has no total). *)
Theorem plp_snp_codes {F M : Type} {PF : PyFloat F} {SO : SNPMCount.Ops M}
    (snp : SNP) (sam_list : list sam.AlignmentFile) (mcnt : M)
    (conf : Config F) :
  match plp_snp snp sam_list mcnt conf with
  | Val (code, _) =>
      (code = -3 \/ code = -5 \/ code = -7 \/ code = 0 \/ code = 3 \/ code = 5)
      /\ (code = -3 <-> fst (SNPMCount.add_snp mcnt snp) < 0)
  | Exc e => lookup_error e /\ 0 <= fst (SNPMCount.add_snp mcnt snp)
  end.
Proof.
  pose proof (plp_snp_end conf snp sam_list mcnt) as Hend.
  unfold plp_snp in *. destruct (SNPMCount.add_snp mcnt snp) as [r m0].
  cbn [fst]. destruct (Z.ltb_spec r 0) as [Hr | Hr].
  - split; [auto | tauto].
  - pose proof (plp_sams_end conf snp sam_list 0 m0) as Hs.
    destruct (plp_sams 0 sam_list snp m0 conf) as [[m1 | c m1] | e].
    + destruct (SNPMCount.stat m1) as [r1 m2].
      destruct (r1 <? 0); [split; [auto 6 | lia] |].
      destruct (plp_snp_gate snp m2 conf) as [[code m3] | e] eqn:Hg;
        [| auto].
      split; [exact Hend |].
      apply plp_snp_gate_inv in Hg as [_ [-> | [-> | ->]]]; lia.
    + subst. split; [auto | lia].
    + auto.
Qed.

(** X6. [fc_fet1] returns code 0 together with the three dictionaries, or
    one of the codes -3, -5, -7 together with [None]; it never returns a
    positive code, and the only exceptions that leave it are those of a
    failed subscript. *)
Theorem fc_fet1_codes {F M FM : Type} {PF : PyFloat F}
    {SO : SNPMCount.Ops M} {FO : FeatureMCount.Ops FM M}
    (reg : Region) (sam_list : list sam.AlignmentFile) (mcnt : M) (fm : FM)
    (conf : Config F) :
  match fc_fet1 reg sam_list mcnt fm conf with
  | Val (code, cnt, _) =>
      (code = 0 /\ is_Some cnt)
      \/ ((code = -3 \/ code = -5 \/ code = -7) /\ cnt = None)
  | Exc e => lookup_error e
  end.
Proof.
  pose proof (fc_fet1_end conf reg sam_list mcnt fm) as He.
  destruct (fc_fet1 reg sam_list mcnt fm conf) as [[[code cnt] [m1 fm1]] | e];
    [| exact He].
  destruct He as [[-> ->] | H]; [left; eauto | right; exact H].
Qed.

(** X7. A worker that returns leaves [ret] 0 and [nr_reg] equal to the
    number of regions, which is the number of region lines written; a
    worker stopped by an exception leaves [ret] -1 and [nr_reg] as it was
    on entry, and the exception is RuntimeError "errcode -9" or that of a
    failed subscript.  The exception always comes out of [fc_fet1], in a
    region reached after the regions before it were completed: either
    [fc_fet1] returned a negative code without dictionaries, and the
    exception is the RuntimeError, or [fc_fet1] itself raised it.  The
    lookups of the emission loop never raise. *)
Theorem worker_exit_status {F M FM : Type} {PF : PyFloat F}
    {SO : SNPMCount.Ops M} {FO : FeatureMCount.Ops FM M}
    (td : ThreadData) (conf : Config F) (sam_list : list sam.AlignmentFile)
    (reg_list : list Region) (sm : M) (fm : FM) :
  match fc_features td conf sam_list reg_list sm fm with
  | Returned w =>
      ret (thdata w) = 0
      /\ nr_reg (thdata w) = Z.of_nat (length reg_list)
      /\ length (fp_reg (files w)) = length reg_list
  | Raised e w =>
      ret (thdata w) = -1
      /\ nr_reg (thdata w) = nr_reg td
      /\ (e = RuntimeError "errcode -9" \/ lookup_error e)
      /\ exists pre reg post w1,
           reg_list = (pre ++ reg :: post)%list
           /\ fc_regions conf sam_list 0 pre (opened td sm fm) = Returned w1
           /\ ((exists code ms,
                  fc_fet1 reg sam_list (snp_mcnt w1)
                    (snd (FeatureMCount.add_region (mcnt w1) reg)) conf
                  = Val (code, None, ms)
                  /\ code < 0 /\ e = RuntimeError "errcode -9")
               \/ fc_fet1 reg sam_list (snp_mcnt w1)
                    (snd (FeatureMCount.add_region (mcnt w1) reg)) conf
                  = Exc e)
  end.
Proof.
  unfold fc_features.
  pose proof (fc_regions_status conf sam_list reg_list 0 (opened td sm fm))
    as [Hret Hnr].
  destruct (fc_regions conf sam_list 0 reg_list (opened td sm fm))
    as [w | e w] eqn:Hrun; cbn [final] in *.
  - cbn [thdata files ret nr_reg]. split; [reflexivity |].
    split; [reflexivity |].
    rewrite (fc_regions_fp_reg _ _ _ _ _ _ Hrun). cbn.
    now rewrite length_map.
  - split; [exact Hret |]. split; [exact Hnr |].
    apply fc_regions_raised in Hrun as (pre & reg & post & w1 & -> & Hpre & Hl).
    pose proof (fc_region_end conf sam_list (0 + length pre) reg w1) as Hend.
    rewrite Hl in Hend.
    inversion Hend as [| e' Hne Hf | code sm1 fm1 Hne Hf Hc |]; subst.
    + split.
      * right.
        pose proof (fc_fet1_end conf reg sam_list (snp_mcnt w1)
                      (snd (FeatureMCount.add_region (mcnt w1) reg))) as He.
        now rewrite Hf in He.
      * exists pre, reg, post, w1. auto.
    + split; [auto |].
      exists pre, reg, post, w1. split; [reflexivity |]. split; [exact Hpre |].
      left. exists code, (sm1, fm1). auto.
Qed.

(** The worker with a corrupted tally stops in its second region, where
    [fc_fet1] returns -3. *)
Lemma worker_exit_status_witness :
  ret (thdata (final (Example.run corrupt_SnpTally_ops Example.reads6
                        [Example.desert; Example.gene; Example.desert]))) = -1.
Proof.
  pose proof (worker_exit_status (PF := Ratio_ops)
                (SO := corrupt_SnpTally_ops) (FO := FeatureTally_ops)
                Example.td0 Example.conf [Example.sam_of Example.reads6]
                [Example.desert; Example.gene; Example.desert]
                Example.tally0 Example.feature0) as Hx.
  unfold Example.run.
  destruct (fc_features Example.td0 Example.conf
              [Example.sam_of Example.reads6]
              [Example.desert; Example.gene; Example.desert]
              Example.tally0 Example.feature0) as [w | e w] eqn:Hrun.
  - vm_compute in Hrun. discriminate.
  - exact (proj1 Hx).
Defined.

(** X8. Whatever the outcome of the worker, the AD, DP and OTH files have
    received the same number of writes, at most one per region line
    written: the three streams never get out of step. *)
Theorem count_streams_in_step {F M FM : Type} {PF : PyFloat F}
    {SO : SNPMCount.Ops M} {FO : FeatureMCount.Ops FM M}
    (td : ThreadData) (conf : Config F) (sam_list : list sam.AlignmentFile)
    (reg_list : list Region) (sm : M) (fm : FM) :
  let w := final (fc_features td conf sam_list reg_list sm fm) in
  length (fp_ad (files w)) = length (fp_dp (files w))
  /\ length (fp_dp (files w)) = length (fp_oth (files w))
  /\ (length (fp_ad (files w)) <= length (fp_reg (files w)))%nat
  /\ (length (fp_reg (files w)) <= length reg_list)%nat.
Proof.
  cbv zeta.
  assert (H0 : in_step (opened td sm fm)) by (unfold in_step; cbn; lia).
  pose proof (fc_regions_in_step conf sam_list reg_list 0 _ H0)
    as (H1 & H2 & H3).
  unfold fc_features.
  destruct (fc_regions conf sam_list 0 reg_list (opened td sm fm))
    as [w | e w] eqn:Hrun; cbn [final files] in *.
  - repeat split; auto.
    rewrite (fc_regions_fp_reg _ _ _ _ _ _ Hrun). cbn.
    now rewrite length_map.
  - repeat split; auto.
    apply fc_regions_raised in Hrun as (pre & reg & post & w1 & -> & Hpre & Hl).
    pose proof (fc_region_fp_reg conf sam_list (0 + length pre) reg w1) as Hreg.
    rewrite Hl in Hreg. cbn [final] in Hreg.
    rewrite Hreg, (fc_regions_fp_reg _ _ _ _ _ _ Hpre). cbn.
    rewrite !length_app, length_map. cbn. lia.
Qed.

(* ===================================================================== *)
(** * Pileup *)
(* ===================================================================== *)

Section PileupFacts.
Context {F : Type} {PF : PyFloat F} {M : Type} {SO : SNPMCount.Ops M}.
Implicit Types (conf : Config F) (mcnt : M).

Lemma plp_reads_qualified conf idx reads : forall mcnt,
  plp_reads idx reads mcnt conf = plp_reads idx (qualified conf reads) mcnt conf.
Proof.
  induction reads as [| read reads IH]; intros mcnt; [reflexivity |].
  cbn [plp_reads qualified List.filter].
  destruct (check_read read conf <? 0) eqn:Hc; cbn [negb]; [apply IH |].
  cbn [plp_reads]. rewrite Hc.
  destruct (plp_push conf idx mcnt read) as [[code m1] | e]; [| reflexivity].
  destruct (code <? 0); [destruct (code =? -1) |]; auto; apply IH.
Qed.

Lemma plp_sams_uncovered conf snp sam_list : forall idx mcnt,
  Forall (fun sam =>
            sam.sam_fetch sam (snp_chrom snp) (Some (snp_pos snp))
              (Some (snp_pos snp)) = None) sam_list ->
  plp_sams idx sam_list snp mcnt conf = Val (Next mcnt).
Proof.
  induction sam_list as [| sam sam_list IH]; intros idx mcnt Hall;
    [reflexivity |].
  apply Forall_cons in Hall as [Hsam Hall]. cbn [plp_sams].
  rewrite Hsam. now apply IH.
Qed.

End PileupFacts.

(** X9. Reads that [check_read] turns down are invisible to the pileup of a
    file: the loop over a read set behaves as the loop over its qualifying
    reads, so such a read is never pushed and cannot cause an error. *)
Theorem unqualified_reads_skipped {F M : Type}
    {SO : SNPMCount.Ops M} (conf : Config F) (idx : nat)
    (reads : list AlignedSegment) (mcnt : M) :
  plp_reads idx reads mcnt conf = plp_reads idx (qualified conf reads) mcnt conf
  /\ (qualified conf reads = [] -> plp_reads idx reads mcnt conf = Val (Next mcnt)).
Proof.
  split; [apply plp_reads_qualified |].
  intros Hq. now rewrite plp_reads_qualified, Hq.
Qed.

Lemma unqualified_reads_skipped_witness :
  let conf := with_min_mapq 61 Example.conf in
  qualified conf Example.reads6 = []
  /\ plp_reads (SO := SnpTally_ops) 0 Example.reads6 Example.tally0 conf
     = Val (Next Example.tally0).
Proof.
  cbv zeta. split; [reflexivity |].
  exact (proj2 (unqualified_reads_skipped
                  (SO := SnpTally_ops) (with_min_mapq 61 Example.conf)
                  0 Example.reads6 Example.tally0) eq_refl).
Defined.

(** X10. In sample mode an alignment file without a sample at its index
    (more files than samples) raises IndexError at its first qualifying
    read, and passes unnoticed when none of its reads qualifies. *)
Theorem file_without_sample {F M : Type}
    {SO : SNPMCount.Ops M} (conf : Config F) (idx : nat)
    (reads : list AlignedSegment) (mcnt : M) :
  use_barcodes conf = false ->
  samples conf !! idx = None ->
  plp_reads idx reads mcnt conf
  = match qualified conf reads with
    | [] => Val (Next mcnt)
    | _ :: _ => Exc IndexError
    end.
Proof.
  intros Hb Hs. induction reads as [| read reads IH]; [reflexivity |].
  cbn [plp_reads qualified List.filter].
  destruct (check_read read conf <? 0); cbn [negb]; [exact IH |].
  unfold plp_push. now rewrite Hb, Hs.
Qed.

Lemma file_without_sample_witness :
  plp_reads (SO := SnpTally_ops) 1 Example.reads6
    Example.tally0 Example.conf
  = Exc IndexError.
Proof.
  exact (file_without_sample (SO := SnpTally_ops)
           Example.conf 1 Example.reads6 Example.tally0 eq_refl eq_refl).
Defined.

(** X11. A SNP that no alignment file covers ([sam_fetch] returns None for
    every file) is piled up as if there were no alignment files: nothing is
    pushed, and the tally goes from [add_snp] straight to [stat] and the
    gate. *)
Theorem uncovered_snp {F M : Type} {PF : PyFloat F} {SO : SNPMCount.Ops M}
    (snp : SNP) (sam_list : list sam.AlignmentFile) (mcnt : M)
    (conf : Config F) :
  Forall (fun sam =>
            sam.sam_fetch sam (snp_chrom snp) (Some (snp_pos snp))
              (Some (snp_pos snp)) = None) sam_list ->
  plp_snp snp sam_list mcnt conf = plp_snp snp [] mcnt conf.
Proof.
  intros Hall. unfold plp_snp.
  destruct (SNPMCount.add_snp mcnt snp) as [r m0].
  destruct (r <? 0); [reflexivity |].
  now rewrite (plp_sams_uncovered conf snp sam_list 0 m0 Hall).
Qed.

(** A SNP on a chromosome the file does not have is filtered for lack of
    depth. *)
Lemma uncovered_snp_witness :
  let snp := {| snp_chrom := "7"; snp_pos := 1000; snp_ref := "A";
                snp_alt := "G" |} in
  plp_snp (PF := Ratio_ops) (SO := SnpTally_ops) snp
    [Example.sam_of Example.reads6] Example.tally0 Example.conf
  = Val (3, snd (tally_stat (snd (tally_add_snp Example.tally0 snp)))).
Proof.
  cbv zeta.
  rewrite (uncovered_snp (PF := Ratio_ops) (SO := SnpTally_ops)
             {| snp_chrom := "7"; snp_pos := 1000; snp_ref := "A";
                snp_alt := "G" |}
             [Example.sam_of Example.reads6] Example.tally0 Example.conf).
  - reflexivity.
  - repeat constructor.
Defined.

(** X12. The dictionaries returned by [fc_fet1] have an entry for exactly
    the configured samples and the units tallied by the feature machine; a
    configured sample without tally has the three counts 0. *)
Theorem region_dict_keys {F M FM : Type} {PF : PyFloat F}
    {SO : SNPMCount.Ops M} {FO : FeatureMCount.Ops FM M}
    (reg : Region) (sam_list : list sam.AlignmentFile) (sm : M) (fm : FM)
    (conf : Config F) code cnt sm' fm' (smp : string) :
  fc_fet1 reg sam_list sm fm conf = Val (code, Some cnt, (sm', fm')) ->
  let tallied := is_Some (FeatureMCount.cell_cnt fm' !! smp) in
  (is_Some (reg_alt_cnt cnt !! smp) <-> smp ∈ samples conf \/ tallied)
  /\ (is_Some (reg_dp_cnt cnt !! smp) <-> smp ∈ samples conf \/ tallied)
  /\ (is_Some (reg_oth_cnt cnt !! smp) <-> smp ∈ samples conf \/ tallied)
  /\ (smp ∈ samples conf -> ~ tallied ->
      reg_alt_cnt cnt !! smp = Some 0 /\ reg_dp_cnt cnt !! smp = Some 0
      /\ reg_oth_cnt cnt !! smp = Some 0).
Proof.
  intros Hf. apply fc_fet1_inv in Hf as [_ ->]. cbv zeta.
  destruct (fet1_counts_lookup conf (FeatureMCount.cell_cnt fm') smp)
    as (-> & -> & ->).
  rewrite zero_dict_lookup.
  destruct (FeatureMCount.cell_cnt fm' !! smp) as [scnt |]; cbn.
  - split; [| split; [| split]];
      try (split; [intros _; right; eauto | intros _; eauto]).
    intros _ Hn. exfalso. apply Hn. eauto.
  - destruct (decide (smp ∈ samples conf)) as [Hin | Hnin].
    + split; [| split; [| split]];
        try (split; [intros _; left; assumption | intros _; eauto]).
      auto.
    + split; [| split; [| split]];
        try (split; [intros [x Hx]; discriminate
                    | intros [? | [x Hx]]; [contradiction | discriminate]]).
      intros Hin. contradiction.
Qed.

Lemma region_dict_keys_witness :
  is_Some (reg_alt_cnt Example.counts_gene !! "S1")
  /\ ~ is_Some (reg_alt_cnt Example.counts_gene !! "S2").
Proof.
  destruct (region_dict_keys (PF := Ratio_ops) (SO := SnpTally_ops)
              (FO := FeatureTally_ops) _ _ _ _ _ _ _ _ _ "S1"
              fet1_gene_returns) as (H1 & _).
  destruct (region_dict_keys (PF := Ratio_ops) (SO := SnpTally_ops)
              (FO := FeatureTally_ops) _ _ _ _ _ _ _ _ _ "S2"
              fet1_gene_returns) as (H2 & _).
  split.
  - apply H1. left. repeat constructor.
  - intros Hs. apply H2 in Hs as [Hin | [x Hx]].
    + apply list_elem_of_singleton in Hin. discriminate.
    + vm_compute in Hx. discriminate.
Defined.

(** The two attempts of [sam_fetch]. *)
Lemma sam_fetch_attempts (sam : sam.AlignmentFile) chrom start end_ :
  sam.sam_fetch sam chrom start end_
  = match attempt (sam.fetch sam chrom ((fun s => s - 1) <$> start) end_) with
    | Some itr => Some itr
    | None => attempt (sam.fetch sam (sam.alt_chrom chrom)
                         ((fun s => s - 1) <$> start) end_)
    end.
Proof.
  unfold sam.sam_fetch, attempt. destruct start as [s |]; simpl;
    destruct (sam.fetch sam chrom _ end_) as [itr | e];
    try destruct (sam.it_bool itr); reflexivity.
Qed.

Lemma attempt_Some r itr :
  attempt r = Some itr -> r = Val itr /\ sam.it_bool itr = true.
Proof.
  unfold attempt. destruct r as [i | e]; [| discriminate].
  destruct (sam.it_bool i) eqn:Hb; [| discriminate].
  intros [= <-]. auto.
Qed.

(** X13. An iterator returned by [sam_fetch] is one that the underlying
    fetch returned, for the name given or for the alternate name, and it is
    true: [sam_fetch] never hands an empty (false) iterator to its caller,
    which is why [plp_snp] may test it with [if not itr]. *)
Theorem sam_fetch_true_iterator (sam : sam.AlignmentFile) (chrom : string)
    (start end_ : option Z) (itr : sam.Iterator) :
  sam.sam_fetch sam chrom start end_ = Some itr ->
  sam.it_bool itr = true
  /\ (sam.fetch sam chrom ((fun s => s - 1) <$> start) end_ = Val itr
      \/ sam.fetch sam (sam.alt_chrom chrom) ((fun s => s - 1) <$> start) end_
         = Val itr).
Proof.
  rewrite sam_fetch_attempts.
  destruct (attempt (sam.fetch sam chrom _ end_)) as [i |] eqn:H1.
  - intros [= <-]. apply attempt_Some in H1 as [-> ->]. auto.
  - intros H2. apply attempt_Some in H2 as [-> ->]. auto.
Qed.

Lemma sam_fetch_true_iterator_witness :
  sam.fetch (Example.sam_of Example.reads6) "chr1" (Some 999) (Some 1000)
  = Val {| sam.it_bool := true; sam.it_reads := Example.reads6 |}.
Proof.
  destruct (sam_fetch_true_iterator (Example.sam_of Example.reads6) "1"
              (Some 1000) (Some 1000)
              {| sam.it_bool := true; sam.it_reads := Example.reads6 |}
              eq_refl) as [_ [H | H]].
  - discriminate H.
  - exact H.
Defined.

Lemma prefix_chr (chrom : string) :
  String.prefix "chr" chrom = true ->
  chrom = "chr" +:+ sam.str_drop 3 chrom.
Proof.
  intros H. destruct chrom as [| a [| b [| c s]]]; cbn [String.prefix] in H;
    repeat match type of H with
           | context [ascii_dec ?x ?y] =>
               destruct (ascii_dec x y); cbn [String.prefix] in H
           end;
    try discriminate.
  subst. reflexivity.
Qed.

Lemma prefix_chrchr (s : string) :
  String.prefix "chrchr" ("chr" +:+ s) = String.prefix "chr" s.
Proof. destruct s; reflexivity. Qed.

Lemma alt_chrom_twice (chrom : string) :
  String.prefix "chrchr" chrom = false ->
  sam.alt_chrom (sam.alt_chrom chrom) = chrom.
Proof.
  intros Hcc. destruct (String.prefix "chr" chrom) eqn:Hc.
  - apply prefix_chr in Hc. rewrite Hc in Hcc |- *.
    rewrite prefix_chrchr in Hcc. rewrite alt_chrom_strip.
    now apply alt_chrom_add.
  - rewrite (alt_chrom_add _ Hc). apply alt_chrom_strip.
Qed.

(** X14. Taking the alternate chromosome name twice gives the name back,
    for every name that does not start with "chrchr": removing and adding
    the prefix are inverse to each other. *)
Theorem alt_chrom_involutive (chrom : string) :
  String.prefix "chrchr" chrom = false ->
  sam.alt_chrom (sam.alt_chrom chrom) = chrom
  /\ (String.prefix "chr" chrom = true ->
      String.prefix "chr" (sam.alt_chrom chrom) = false)
  /\ (String.prefix "chr" chrom = false ->
      String.prefix "chr" (sam.alt_chrom chrom) = true).
Proof.
  intros Hcc. split; [now apply alt_chrom_twice |]. split; intros Hc.
  - apply prefix_chr in Hc. rewrite Hc in Hcc |- *.
    rewrite prefix_chrchr in Hcc. now rewrite alt_chrom_strip.
  - rewrite (alt_chrom_add _ Hc). now destruct chrom.
Qed.

Lemma alt_chrom_involutive_witness :
  sam.alt_chrom (sam.alt_chrom "chrX") = "chrX"
  /\ sam.alt_chrom (sam.alt_chrom "MT") = "MT".
Proof.
  split.
  - exact (proj1 (alt_chrom_involutive "chrX" eq_refl)).
  - exact (proj1 (alt_chrom_involutive "MT" eq_refl)).
Defined.

(** X15. If an alignment file gives nothing under the alternate form of a
    chromosome name, asking [sam_fetch] for the alternate form gives the
    same result as asking for the name itself (for a name not starting with
    "chrchr"): whichever form the caller uses, the reads of the form the
    file knows are found. *)
Theorem chr_prefix_tolerance (sam : sam.AlignmentFile) (chrom : string)
    (start end_ : option Z) :
  String.prefix "chrchr" chrom = false ->
  attempt (sam.fetch sam (sam.alt_chrom chrom) ((fun s => s - 1) <$> start) end_)
    = None ->
  sam.sam_fetch sam (sam.alt_chrom chrom) start end_
  = sam.sam_fetch sam chrom start end_.
Proof.
  intros Hcc Halt. rewrite !sam_fetch_attempts, Halt, (alt_chrom_twice _ Hcc).
  destruct (attempt (sam.fetch sam chrom _ end_)); reflexivity.
Qed.

Lemma chr_prefix_tolerance_witness :
  sam.sam_fetch (Example.sam_of Example.reads6) "1" (Some 1000) (Some 1000)
  = sam.sam_fetch (Example.sam_of Example.reads6) "chr1" (Some 1000) (Some 1000).
Proof.
  exact (chr_prefix_tolerance (Example.sam_of Example.reads6) "chr1"
           (Some 1000) (Some 1000) eq_refl eq_refl).
Defined.

(** X16. Lowering [min_count] never changes the decision of the gate for a
    SNP that passed the depth test: a tally accepted (code 0) or filtered
    for its minor-allele fraction (code 5) gets the same code. *)
Theorem gate_min_count {F M : Type} {PF : PyFloat F} {SO : SNPMCount.Ops M}
    (snp : SNP) (mcnt : M) (conf : Config F) (n code : Z) (mcnt' : M) :
  plp_snp_gate snp mcnt conf = Val (code, mcnt') ->
  code <> 3 ->
  n <= min_count conf ->
  plp_snp_gate snp mcnt (with_min_count n conf) = Val (code, mcnt').
Proof.
  unfold plp_snp_gate. cbn [min_count min_maf with_min_count].
  destruct (Z.ltb_spec (foldl Z.add 0 (SNPMCount.tcount mcnt)) (min_count conf))
    as [Hlt | Hge].
  - intros [= <- _] Hne. congruence.
  - intros Hg _ Hn. now rewrite (proj2 (Z.ltb_ge _ n)) by lia.
Qed.

Lemma gate_min_count_witness :
  plp_snp_gate (PF := Ratio_ops) (SO := SnpTally_ops) Example.snp
    (Example.finalized Example.reads7) (with_min_count 1 Example.conf)
  = Val (5, Example.finalized Example.reads7).
Proof.
  apply (gate_min_count (PF := Ratio_ops) (SO := SnpTally_ops));
    [reflexivity | discriminate | discriminate].
Defined.

(* ===================================================================== *)
(** * Output is append-only *)
(* ===================================================================== *)

Lemma extends_refl fs : extends fs fs.
Proof. repeat split; exists []; now rewrite app_nil_r. Qed.

Lemma extends_trans fs1 fs2 fs3 :
  extends fs1 fs2 -> extends fs2 fs3 -> extends fs1 fs3.
Proof.
  intros ([a1 H1] & [b1 H2] & [c1 H3] & [d1 H4])
         ([a2 G1] & [b2 G2] & [c2 G3] & [d2 G4]).
  repeat split; [exists (a1 ++ a2)%list | exists (b1 ++ b2)%list
                | exists (c1 ++ c2)%list | exists (d1 ++ d2)%list];
    rewrite app_assoc; congruence.
Qed.

Section AppendOnly.
Context {F : Type} {PF : PyFloat F} {M FM : Type}
        {SO : SNPMCount.Ops M} {FO : FeatureMCount.Ops FM M}.
Implicit Types (conf : Config F) (w : Worker M FM).

Lemma fc_region_extends conf sam_list reg_idx reg w :
  extends (files w) (files (final (fc_region conf sam_list reg_idx reg w))).
Proof.
  destruct (fc_region_end conf sam_list reg_idx reg w);
    cbn [final files]; try destruct (existsb _ _);
    unfold extends; cbn [write_counts write_reg fp_reg fp_ad fp_dp fp_oth];
    repeat split; eauto; exists []; now rewrite app_nil_r.
Qed.

Lemma fc_regions_extends conf sam_list regs : forall reg_idx w,
  extends (files w) (files (final (fc_regions conf sam_list reg_idx regs w))).
Proof.
  induction regs as [| reg regs IH]; intros reg_idx w; simpl;
    [apply extends_refl |].
  pose proof (fc_region_extends conf sam_list reg_idx reg w) as Hreg.
  destruct (fc_region conf sam_list reg_idx reg w) as [w1 | e1 w1];
    cbn [final] in Hreg; [| exact Hreg].
  eapply extends_trans; [exact Hreg | apply IH].
Qed.

End AppendOnly.

(** X17. The output of a worker is append-only: what the worker has
    written to its four files after the first regions of its list is kept,
    in place, at the start of the files it leaves after the whole list,
    whether it then returns or is stopped by an exception. *)
Theorem output_append_only {F M FM : Type} {PF : PyFloat F}
    {SO : SNPMCount.Ops M} {FO : FeatureMCount.Ops FM M}
    (td : ThreadData) (conf : Config F) (sam_list : list sam.AlignmentFile)
    (pre post : list Region) (sm : M) (fm : FM) (w1 : Worker M FM) :
  fc_features td conf sam_list pre sm fm = Returned w1 ->
  extends (files w1)
    (files (final (fc_features td conf sam_list (pre ++ post) sm fm))).
Proof.
  unfold fc_features. rewrite fc_regions_app.
  destruct (fc_regions conf sam_list 0 pre (opened td sm fm))
    as [w | e w]; [| discriminate].
  intros [= <-]. cbn [files].
  pose proof (fc_regions_extends conf sam_list post (0 + length pre) w) as Hx.
  destruct (fc_regions conf sam_list (0 + length pre) post w); exact Hx.
Qed.

(** After the region of example 6, a region without SNPs adds its region
    line and nothing else. *)
Lemma output_append_only_witness :
  extends
    (files (final (Example.run SnpTally_ops Example.reads6 [Example.gene])))
    (files (final (Example.run SnpTally_ops Example.reads6
                     [Example.gene; Example.desert]))).
Proof.
  refine (output_append_only (PF := Ratio_ops) (SO := SnpTally_ops)
            (FO := FeatureTally_ops) Example.td0 Example.conf
            [Example.sam_of Example.reads6] [Example.gene] [Example.desert]
            Example.tally0 Example.feature0 _ _).
  vm_compute. reflexivity.
Defined.

(* ===================================================================== *)
(** * Emission within the worker *)
(* ===================================================================== *)

(** C4. In a worker, take a region of the assigned list that has SNPs and
    for which [fc_fet1] has returned its dictionaries, the regions before
    it being completed.  The sample loop then builds, for each stream, the
    lines of the samples whose dp_count plus oth_count is positive and
    whose count for that stream is positive; each line is region index,
    sample index and count, the region index being the position of the
    region in the list plus one and the sample index the position of the
    sample in the configured list plus one.  The three strings are
    written, one write per stream, exactly when some sample has dp_count
    plus oth_count positive, which needs a sample with nonzero dp_count or
    oth_count; they stay in place in the files the worker leaves. *)
Theorem emission_spec {F M FM : Type} {PF : PyFloat F}
    {SO : SNPMCount.Ops M} {FO : FeatureMCount.Ops FM M}
    (td : ThreadData) (conf : Config F) (sam_list : list sam.AlignmentFile)
    (pre : list Region) (reg : Region) (post : list Region) (sm : M) (fm : FM)
    (w1 : Worker M FM) code cnt sm' fm' :
  fc_regions conf sam_list 0 pre (opened td sm fm) = Returned w1 ->
  snp_list reg <> [] ->
  fc_fet1 reg sam_list (snp_mcnt w1)
    (snd (FeatureMCount.add_region (mcnt w1) reg)) conf
    = Val (code, Some cnt, (sm', fm')) ->
  let l := spec_Lines cnt (length pre) (samples conf) in
  let fs := write_reg (str_reg reg) (files w1) in
  let w2 := {| thdata := counted l (thdata w1);
               files := if existsb (considered cnt) (samples conf)
                        then write_counts l fs else fs;
               snp_mcnt := sm'; mcnt := fm' |} in
  emit_samples (length pre) 0 (samples conf) cnt (empty_Lines, thdata w1)
    = Returned (l, counted l (thdata w1))
  /\ fc_regions conf sam_list 0 (pre ++ [reg]) (opened td sm fm) = Returned w2
  /\ extends (files w2)
       (files (final (fc_features td conf sam_list (pre ++ reg :: post) sm fm)))
  /\ (forall count : gmap string Z,
        spec_lines count cnt (length pre) (samples conf)
        = content (imap (spec_line count cnt (length pre)) (samples conf))
        /\ forall i smp,
             spec_line count cnt (length pre) i smp
             = if (0 <? reg_dp_cnt cnt !!! smp + reg_oth_cnt cnt !!! smp)
                  && (0 <? count !!! smp)
               then fmt_d (Z.of_nat (length pre) + 1) +:+ TAB
                      +:+ fmt_d (Z.of_nat i + 1) +:+ TAB
                      +:+ fmt_d (count !!! smp) +:+ LF
               else EmptyString)
  /\ (existsb (considered cnt) (samples conf) = true ->
      exists smp, smp ∈ samples conf
        /\ (reg_dp_cnt cnt !!! smp <> 0 \/ reg_oth_cnt cnt !!! smp <> 0)).
Proof.
  intros Hpre Hne Hf. cbv zeta.
  destruct (fc_region_emits conf sam_list (length pre) reg w1 _ _ _ _ Hne Hf)
    as (Hemit & Hreg & Hnz).
  assert (Hrun : fc_regions conf sam_list 0 (pre ++ [reg]) (opened td sm fm)
    = Returned
        {| thdata := counted (spec_Lines cnt (length pre) (samples conf))
                       (thdata w1);
           files := if existsb (considered cnt) (samples conf)
                    then write_counts
                           (spec_Lines cnt (length pre) (samples conf))
                           (write_reg (str_reg reg) (files w1))
                    else write_reg (str_reg reg) (files w1);
           snp_mcnt := sm'; mcnt := fm' |}).
  { rewrite fc_regions_app, Hpre. cbn [fc_regions Nat.add]. now rewrite Hreg. }
  split; [exact Hemit |]. split; [exact Hrun |]. split; [| split].
  - unfold fc_features.
    replace (pre ++ reg :: post)%list with ((pre ++ [reg]) ++ post)%list
      by (now rewrite <- app_assoc).
    rewrite fc_regions_app, Hrun.
    match goal with
    | |- context [fc_regions conf sam_list ?k post ?w] =>
        pose proof (fc_regions_extends conf sam_list post k w) as Hx;
        destruct (fc_regions conf sam_list k post w); exact Hx
    end.
  - intros count. split; reflexivity.
  - exact Hnz.
Qed.

(** Example 6 of the specification as the second region of a worker: it
    writes the AD row 2, 1, 4 and the DP row 2, 1, 10, and an empty
    contribution to OTH. *)
Lemma emission_spec_witness :
  let w := final (fc_regions (PF := Ratio_ops) (SO := SnpTally_ops)
                    (FO := FeatureTally_ops) Example.conf
                    [Example.sam_of Example.reads6] 0
                    [Example.desert; Example.gene]
                    (opened Example.td0 Example.tally0 Example.feature0)) in
  fp_ad (files w) = [fmt_triplet 2 1 4]
  /\ fp_dp (files w) = [fmt_triplet 2 1 10]
  /\ fp_oth (files w) = [EmptyString].
Proof.
  cbv zeta.
  assert (Hne : snp_list Example.gene <> []) by discriminate.
  destruct (emission_spec (PF := Ratio_ops) (SO := SnpTally_ops)
              (FO := FeatureTally_ops) Example.td0 Example.conf
              [Example.sam_of Example.reads6]
              [Example.desert] Example.gene [Example.desert]
              Example.tally0 Example.feature0
              {| thdata := thdata (opened Example.td0 Example.tally0
                                     Example.feature0);
                 files := write_reg (str_reg Example.desert)
                            (files (opened Example.td0 Example.tally0
                                      Example.feature0));
                 snp_mcnt := Example.tally0;
                 mcnt := snd (feature_add_region Example.feature0
                                Example.desert) |}
              0 Example.counts_gene
              (fst Example.machines_gene) (snd Example.machines_gene)
              eq_refl Hne fet1_gene_returns) as (_ & Hrun & _).
  change [Example.desert; Example.gene]
    with ([Example.desert] ++ [Example.gene])%list.
  rewrite Hrun. vm_compute. repeat split.
Defined.
